(** * The CLI server on the UART service (src/cli/cli_uart.cpp)

    A shallow embedding of [Thread::Cli::Uart]: the line assembler
    ([ReceiveTask], [ProcessCommand]), the transmit ring ([Output],
    [Send], [SendDoneTask]), formatted output ([OutputFormat]) and the log
    front end ([otCliLog]), with the properties of each.

    Conventions.
    - A byte is a [Z] in [0, 256) (the bit pattern of the [uint8_t] or
      [char]); a span (pointer, length) is the list of its bytes.
    - The [uint16_t] members and locals are [Z] with the wrap-around
      [wrap16] written where C++ converts back to [uint16_t]; arithmetic
      in between is done in [int], as the integer promotions do.
    - The class is declared in cli_uart.hpp: its four counters are
      [uint16_t], like the locals [remaining] and [tail] of [Output] that
      are computed from them; its two arrays are lists; their sizes
      [kRxBufferSize] and [kTxBufferSize] are parameters of the
      development.
    - The driver and the interpreter are external: a call of
      [otPlatUartSend] or of [Interpreter::ProcessLine] is an event of the
      trace an operation returns. *)

From Stdlib Require Import ZArith Lia.
From stdpp Require Import base list.

Local Open Scope Z_scope.

(** ** Machine integers and the constant byte strings *)

Definition wrap16 (z : Z) : Z := z mod 65536.

(** [static const char sCommandPrompt[] = {'>', ' '};] *)
Definition sCommandPrompt : list Z := [62; 32].
(** [static const char sEraseString[] = {'\b', ' ', '\b'};] *)
Definition sEraseString : list Z := [8; 32; 8].
(** [static const char CRNL[] = {'\r', '\n'};] *)
Definition CRNL : list Z := [13; 10].

(** One trailing [c] removed from a line, when there is one. *)
Definition strip_last (c : Z) (l : list Z) : list Z :=
  match last l with
  | Some c' => if c' =? c then take (length l - 1) l else l
  | None => l
  end.

(** One trailing LF, then one trailing CR. *)
Definition strip_eol (l : list Z) : list Z := strip_last 13 (strip_last 10 l).

(** ** The C library

    [strlen]: the number of bytes before the first NUL. *)
Fixpoint strlen (buf : list Z) : nat :=
  match buf with
  | [] => O
  | c :: buf' => if c =? 0 then O else S (strlen buf')
  end.

(** The C string in [buf]: its bytes before the first NUL. *)
Definition c_string (buf : list Z) : list Z := take (strlen buf) buf.

(** [vsnprintf(buf, size, fmt, ap)] by its contract: of the [text] that
    the format renders to with its arguments, the first [size - 1] bytes
    are stored, and a NUL after them. The result is the part of [buf]
    that is written. With [size = 0] nothing is written. *)
Definition vsnprintf (size : Z) (text : list Z) : list Z :=
  if size <=? 0 then [] else take (Z.to_nat (size - 1)) text ++ [0].

(** ** The log front end: levels, regions and their tags

    The enumerators that the two [switch] statements of [otCliLog] name
    (platform/logging.h declares the types); [kLogLevelOther] and
    [kLogRegionOther] stand for every other value, which reaches the
    [default] label. *)
Inductive otLogLevel : Type :=
| kLogLevelNone | kLogLevelCrit | kLogLevelWarn | kLogLevelInfo
| kLogLevelDebg | kLogLevelOther.

Inductive otLogRegion : Type :=
| kLogRegionApi | kLogRegionMle | kLogRegionArp | kLogRegionNetData
| kLogRegionIp6 | kLogRegionIcmp | kLogRegionMac | kLogRegionMem
| kLogRegionNcp | kLogRegionMeshCoP | kLogRegionOther.

(** The string literal of each [case] of the first [switch]. *)
Definition level_tag (aLogLevel : otLogLevel) : option (list Z) :=
  match aLogLevel with
  | kLogLevelNone => Some [78; 79; 78; 69; 32]      (* "NONE " *)
  | kLogLevelCrit => Some [67; 82; 73; 84; 32]      (* "CRIT " *)
  | kLogLevelWarn => Some [87; 65; 82; 78; 32]      (* "WARN " *)
  | kLogLevelInfo => Some [73; 78; 70; 79; 32]      (* "INFO " *)
  | kLogLevelDebg => Some [68; 69; 66; 71; 32]      (* "DEBG " *)
  | kLogLevelOther => None
  end.

(** The string literal of each [case] of the second [switch]. *)
Definition region_tag (aLogRegion : otLogRegion) : option (list Z) :=
  match aLogRegion with
  | kLogRegionApi => Some [65; 80; 73; 32; 32]      (* "API  " *)
  | kLogRegionMle => Some [77; 76; 69; 32; 32]      (* "MLE  " *)
  | kLogRegionArp => Some [65; 82; 80; 32; 32]      (* "ARP  " *)
  | kLogRegionNetData => Some [78; 69; 84; 68; 32]  (* "NETD " *)
  | kLogRegionIp6 => Some [73; 80; 86; 54; 32]      (* "IPV6 " *)
  | kLogRegionIcmp => Some [73; 67; 77; 80; 32]     (* "ICMP " *)
  | kLogRegionMac => Some [77; 65; 67; 32; 32]      (* "MAC  " *)
  | kLogRegionMem => Some [77; 69; 77; 32; 32]      (* "MEM  " *)
  | kLogRegionNcp => Some [78; 67; 80; 32; 32]      (* "NCP  " *)
  | kLogRegionMeshCoP => Some [77; 67; 79; 80; 32]  (* "MCOP " *)
  | kLogRegionOther => None
  end.

(** ** Calls that leave the class *)

Inductive Event : Type :=
| EvUartSend (aBuf : list Z) (aBufLength : Z)
    (* otPlatUartSend(aBuf, aBufLength): the bytes at the pointer *)
| EvProcessLine (aBuf : list Z) (aBufLength : Z).
    (* mInterpreter.ProcessLine(aBuf, aBufLength, *this) *)

Definition is_ProcessLine (e : Event) : bool :=
  match e with EvUartSend _ _ => false | EvProcessLine _ _ => true end.

(** The bytes the driver was asked to transmit, in order. *)
Fixpoint sent_bytes (evs : list Event) : list Z :=
  match evs with
  | [] => []
  | EvUartSend aBuf _ :: evs' => aBuf ++ sent_bytes evs'
  | EvProcessLine _ _ :: evs' => sent_bytes evs'
  end.

(** What a run of the interpreter on one line does to the object: see
    the section on the interpreter below. *)
Inductive Reply (Interp : Type) : Type :=
| Done (i : Interp)
| Write (aBuf : list Z) (k : Z -> Reply Interp).
Arguments Done {Interp} i.
Arguments Write {Interp} aBuf k.

(** An interpreter for the concrete runs: it answers a line with the
    line itself and keeps no state. *)
Definition echo_interpreter (i : unit) (aBuf : list Z) (aBufLength : Z)
  : Reply unit :=
  Write (take (Z.to_nat aBufLength) aBuf) (fun _ => Done tt).

Section Uart.

(** The interpreter's own state (the member [mInterpreter]). *)
Variable Interp : Type.

(** [enum { kRxBufferSize, kTxBufferSize }] of cli_uart.hpp. *)
Variable kRxBufferSize : Z.
Variable kTxBufferSize : Z.

(** Built with [OPENTHREAD_EXAMPLES_POSIX] defined or not. *)
Variable OPENTHREAD_EXAMPLES_POSIX : bool.

(** ** The object *)

Record Uart : Type := mkUart {
  mRxBuffer : list Z;      (* char mRxBuffer[kRxBufferSize] *)
  mRxLength : Z;           (* uint16_t *)
  mTxBuffer : list Z;      (* char mTxBuffer[kTxBufferSize] *)
  mTxHead : Z;             (* uint16_t *)
  mTxLength : Z;           (* uint16_t *)
  mSendLength : Z;         (* uint16_t *)
  mInterpreter : Interp
}.

Definition set_mRxBuffer (v : list Z) (u : Uart) : Uart :=
  mkUart v (mRxLength u) (mTxBuffer u) (mTxHead u) (mTxLength u)
         (mSendLength u) (mInterpreter u).
Definition set_mRxLength (v : Z) (u : Uart) : Uart :=
  mkUart (mRxBuffer u) v (mTxBuffer u) (mTxHead u) (mTxLength u)
         (mSendLength u) (mInterpreter u).
Definition set_mTxBuffer (v : list Z) (u : Uart) : Uart :=
  mkUart (mRxBuffer u) (mRxLength u) v (mTxHead u) (mTxLength u)
         (mSendLength u) (mInterpreter u).
Definition set_mTxHead (v : Z) (u : Uart) : Uart :=
  mkUart (mRxBuffer u) (mRxLength u) (mTxBuffer u) v (mTxLength u)
         (mSendLength u) (mInterpreter u).
Definition set_mTxLength (v : Z) (u : Uart) : Uart :=
  mkUart (mRxBuffer u) (mRxLength u) (mTxBuffer u) (mTxHead u) v
         (mSendLength u) (mInterpreter u).
Definition set_mSendLength (v : Z) (u : Uart) : Uart :=
  mkUart (mRxBuffer u) (mRxLength u) (mTxBuffer u) (mTxHead u) (mTxLength u)
         v (mInterpreter u).
Definition set_mInterpreter (v : Interp) (u : Uart) : Uart :=
  mkUart (mRxBuffer u) (mRxLength u) (mTxBuffer u) (mTxHead u) (mTxLength u)
         (mSendLength u) v.

(** [Uart::Uart(otInstance *aInstance)]: the four counters are cleared;
    the object lives in the static [sCliUartRaw], whose bytes start at
    zero. *)
Definition Uart_new (aInstance : Interp) : Uart :=
  mkUart (replicate (Z.to_nat kRxBufferSize) 0) 0
         (replicate (Z.to_nat kTxBufferSize) 0) 0 0 0 aInstance.

(** ** The transmit ring *)

(** The bytes at [mTxBuffer + mTxHead], [mSendLength] of them. *)
Definition send_span (u : Uart) : list Z :=
  take (Z.to_nat (mSendLength u)) (drop (Z.to_nat (mTxHead u)) (mTxBuffer u)).

(** [void Uart::Send(void)] *)
Definition Send (u : Uart) : Uart * list Event :=
  if negb (mSendLength u =? 0) then (u, [])
  else
    let u1 :=
      if mTxLength u >? kTxBufferSize - mTxHead u
      then set_mSendLength (wrap16 (kTxBufferSize - mTxHead u)) u
      else set_mSendLength (mTxLength u) u in
    if mSendLength u1 >? 0
    then (u1, [EvUartSend (send_span u1) (mSendLength u1)])
    else (u1, []).

(** The copy loop of [Output], one iteration per byte of the (already
    truncated) span: [tail = (mTxHead + mTxLength) % kTxBufferSize;
    mTxBuffer[tail] = *aBuf++; mTxLength++]. Both operands of [%] are
    non-negative, where C++'s [%] is [Z.modulo]; [tail] is below
    [kTxBufferSize], so the store is inside the array. *)
Fixpoint Output_loop (aBuf : list Z) (u : Uart) : Uart :=
  match aBuf with
  | [] => u
  | c :: aBuf' =>
      let tail := wrap16 ((mTxHead u + mTxLength u) mod kTxBufferSize) in
      Output_loop aBuf'
        (set_mTxLength (wrap16 (mTxLength u + 1))
           (set_mTxBuffer (<[Z.to_nat tail := c]> (mTxBuffer u)) u))
  end.

(** [int Uart::Output(const char *aBuf, uint16_t aBufLength)]; the
    argument is the span, whose length is converted to [uint16_t]. *)
Definition Output (aBuf : list Z) (u : Uart) : Z * Uart * list Event :=
  let aBufLength := wrap16 (Z.of_nat (length aBuf)) in
  let remaining := wrap16 (kTxBufferSize - mTxLength u) in
  let aBufLength := if aBufLength >? remaining then remaining else aBufLength in
  let u1 := Output_loop (take (Z.to_nat aBufLength) aBuf) u in
  let '(u2, evs) := Send u1 in
  (aBufLength, u2, evs).

(** [void Uart::SendDoneTask(void)] *)
Definition SendDoneTask (u : Uart) : Uart * list Event :=
  let u1 := set_mTxHead (wrap16 ((mTxHead u + mSendLength u) mod kTxBufferSize)) u in
  let u2 := set_mTxLength (wrap16 (mTxLength u1 - mSendLength u1)) u1 in
  let u3 := set_mSendLength 0 u2 in
  Send u3.

(** [enum { kMaxLineLength }] of cli_uart.hpp. *)
Variable kMaxLineLength : Z.

(** [int Uart::OutputFormat(const char *fmt, ...)]: [text] is what the
    format renders to; [buf] has [kMaxLineLength] bytes. *)
Definition OutputFormat (text : list Z) (u : Uart) : Z * Uart * list Event :=
  let buf := vsnprintf kMaxLineLength text in
  Output (take (Z.to_nat (wrap16 (Z.of_nat (strlen buf)))) buf) u.

(** [void otCliLog(otLogLevel, otLogRegion, const char *aFormat, ...)],
    of a build with [OPENTHREAD_ENABLE_CLI_LOGGING]; the first argument is
    the global [Uart::sUartServer], [None] for [NULL]. The last call
    passes the [va_list] itself to [OutputFormat]; [text] is what
    [vsnprintf] renders from that. *)
Definition otCliLog (sUartServer : option Uart) (aLogLevel : otLogLevel)
    (aLogRegion : otLogRegion) (text : list Z) : option Uart * list Event :=
  match sUartServer with
  | None => (None, [])
  | Some u =>
      match level_tag aLogLevel with
      | None => (Some u, [])
      | Some lt =>
          let '(_, u1, e1) := OutputFormat lt u in
          match region_tag aLogRegion with
          | None => (Some u1, e1)
          | Some rt =>
              let '(_, u2, e2) := OutputFormat rt u1 in
              let '(_, u3, e3) := OutputFormat text u2 in
              (Some u3, e1 ++ e2 ++ e3)
          end
      end
  end.

(** ** The interpreter

    [Interpreter::ProcessLine(char *aBuf, uint16_t aBufLength, Server &)]
    is not part of this file. It sees the line and reaches the object
    only through the server handle, that is through [Output] (also by way
    of [OutputFormat], which forwards a rendered span to [Output]). Its
    run is therefore a tree of writes, each continued with the count that
    [Output] returned, ending with the interpreter's new state ([Reply],
    above). What it may write into the line it is given is left out: the
    length is 0 when it returns, and no byte at or after [mRxLength] is
    read before it is stored again. *)

Variable ProcessLine : Interp -> list Z -> Z -> Reply Interp.

(** The interpreter's writes, performed on the object. *)
Fixpoint run_Reply (r : Reply Interp) (u : Uart) : Uart * list Event :=
  match r with
  | Done i => (set_mInterpreter i u, [])
  | Write aBuf k =>
      let '(n, u1, e1) := Output aBuf u in
      let '(u2, e2) := run_Reply (k n) u1 in
      (u2, e1 ++ e2)
  end.

(** ** Operations that can stop

    An access outside [mRxBuffer] has no defined behaviour: nothing is
    said about the run from there on. On a hosted build Ctrl-C leaves the
    process through [exit(EXIT_SUCCESS)]: the run ends there, with the
    object as it is at that point and after the calls made up to it. Both
    end the run. *)

Inductive Stop : Type :=
| OutOfBounds
| ProcessExit (u : Uart) (evs : list Event).
    (* the object when [exit] is called, and the calls made before *)

Inductive Result (A : Type) : Type :=
| Ok (a : A) (u : Uart) (evs : list Event)
| Stopped (why : Stop).
Arguments Ok {A} a u evs.
Arguments Stopped {A} why.

Definition M (A : Type) : Type := Uart -> Result A.

Definition ret {A} (a : A) : M A := fun u => Ok a u [].

(** A stop that follows the calls [e1]: an exit has these calls behind
    it. *)
Definition after_calls (e1 : list Event) (w : Stop) : Stop :=
  match w with
  | OutOfBounds => OutOfBounds
  | ProcessExit u evs => ProcessExit u (e1 ++ evs)
  end.

Definition bind {A B} (m : M A) (f : A -> M B) : M B := fun u =>
  match m u with
  | Stopped w => Stopped w
  | Ok a u1 e1 =>
      match f a u1 with
      | Stopped w => Stopped (after_calls e1 w)
      | Ok b u2 e2 => Ok b u2 (e1 ++ e2)
      end
  end.

Notation "x <- m ;; k" := (bind m (fun x => k))
  (at level 100, m at next level, right associativity).
Notation "m ;; k" := (bind m (fun _ => k))
  (at level 100, right associativity).

(** [exit(EXIT_SUCCESS);] *)
Definition call_exit {A} : M A := fun u => Stopped (ProcessExit u []).
Definition gets {A} (f : Uart -> A) : M A := fun u => Ok (f u) u [].
Definition modify (f : Uart -> Uart) : M unit := fun u => Ok tt (f u) [].
Definition emit (e : Event) : M unit := fun u => Ok tt u [e].

Definition call_Output (aBuf : list Z) : M Z := fun u =>
  let '(n, u', evs) := Output aBuf u in Ok n u' evs.

Definition in_Rx (i : Z) : bool := (0 <=? i) && (i <? kRxBufferSize).

(** [mRxBuffer[i]] read. *)
Definition load_Rx (i : Z) : M Z := fun u =>
  if in_Rx i then
    match mRxBuffer u !! Z.to_nat i with
    | Some c => Ok c u []
    | None => Stopped OutOfBounds
    end
  else Stopped OutOfBounds.

(** [mRxBuffer[i] = c]. *)
Definition store_Rx (i : Z) (c : Z) : M unit := fun u =>
  if in_Rx i && (Z.to_nat i <? length (mRxBuffer u))%nat
  then Ok tt (set_mRxBuffer (<[Z.to_nat i := c]> (mRxBuffer u)) u) []
  else Stopped OutOfBounds.

Definition call_Reply (r : Reply Interp) : M unit := fun u =>
  let '(u', evs) := run_Reply r u in Ok tt u' evs.

(** ** The line assembler *)

(** [mRxBuffer[--mRxLength] = '\0';] *)
Definition drop_last_Rx : M unit :=
  n <- gets mRxLength ;;
  modify (set_mRxLength (wrap16 (n - 1))) ;;
  n' <- gets mRxLength ;;
  store_Rx n' 0.

(** [if (mRxBuffer[mRxLength - 1] == c) { mRxBuffer[--mRxLength] = '\0'; }];
    the index is computed in [int]. *)
Definition strip_Rx (c : Z) : M unit :=
  n <- gets mRxLength ;;
  x <- load_Rx (n - 1) ;;
  if x =? c then drop_last_Rx else ret tt.

(** [ThreadError Uart::ProcessCommand(void)] *)
Definition ProcessCommand : M unit :=
  strip_Rx 10 ;;
  strip_Rx 13 ;;
  aBuf <- gets mRxBuffer ;;
  aBufLength <- gets mRxLength ;;
  i <- gets mInterpreter ;;
  emit (EvProcessLine aBuf aBufLength) ;;
  call_Reply (ProcessLine i aBuf aBufLength) ;;
  modify (set_mRxLength 0).

(** One turn of the loop of [ReceiveTask]: the [switch] on the byte. *)
Definition ReceiveByte (c : Z) : M unit :=
  if (c =? 13) || (c =? 10) then
    call_Output CRNL ;;
    n <- gets mRxLength ;;
    (if n >? 0 then store_Rx n 0 ;; ProcessCommand else ret tt) ;;
    call_Output sCommandPrompt ;;
    ret tt
  else if OPENTHREAD_EXAMPLES_POSIX && (c =? 3) then
    call_exit
  else if (c =? 8) || (c =? 127) then
    n <- gets mRxLength ;;
    (if n >? 0 then call_Output sEraseString ;; drop_last_Rx else ret tt)
  else
    call_Output [c] ;;
    n <- gets mRxLength ;;
    store_Rx n c ;;
    modify (set_mRxLength (wrap16 (n + 1))).

(** [void Uart::ReceiveTask(const uint8_t *aBuf, uint16_t aBufLength)] *)
Fixpoint ReceiveTask (aBuf : list Z) : M unit :=
  match aBuf with
  | [] => ret tt
  | c :: aBuf' => ReceiveByte c ;; ReceiveTask aBuf'
  end.

(** ** Schedules of the transmit ring

    The calls that reach the ring, in the order the single execution
    context makes them; [OpSendDone] is the driver's [otPlatUartSendDone]. *)

Inductive TxOp : Type :=
| OpOutput (aBuf : list Z)
| OpSend
| OpSendDone.

Definition step_tx (op : TxOp) (u : Uart) : Uart * list Event :=
  match op with
  | OpOutput aBuf => let '(_, u', evs) := Output aBuf u in (u', evs)
  | OpSend => Send u
  | OpSendDone => SendDoneTask u
  end.

Fixpoint run_tx (ops : list TxOp) (u : Uart) : Uart * list Event :=
  match ops with
  | [] => (u, [])
  | op :: ops' =>
      let '(u1, e1) := step_tx op u in
      let '(u2, e2) := run_tx ops' u1 in
      (u2, e1 ++ e2)
  end.

(** The bytes a schedule passes to [Output], in order. *)
Fixpoint written (ops : list TxOp) : list Z :=
  match ops with
  | [] => []
  | OpOutput aBuf :: ops' => aBuf ++ written ops'
  | _ :: ops' => written ops'
  end.

Definition is_SendDone (op : TxOp) : bool :=
  match op with OpSendDone => true | _ => false end.

(** The driver completes every send it was given until none is
    outstanding: at most [fuel] completions. *)
Fixpoint drain (fuel : nat) (u : Uart) : Uart * list Event :=
  if mSendLength u =? 0 then (u, [])
  else
    match fuel with
    | O => (u, [])
    | S fuel' =>
        let '(u1, e1) := SendDoneTask u in
        let '(u2, e2) := drain fuel' u1 in
        (u2, e1 ++ e2)
    end.

(** Every write is followed by the completion of each send it started. *)
Fixpoint write_and_complete (fuel : nat) (ws : list (list Z)) (u : Uart)
  : Uart * list Event :=
  match ws with
  | [] => (u, [])
  | w :: ws' =>
      let '(_, u1, e1) := Output w u in
      let '(u2, e2) := drain fuel u1 in
      let '(u3, e3) := write_and_complete fuel ws' u2 in
      (u3, e1 ++ e2 ++ e3)
  end.

(** ** States and their invariants *)

(** The states of the object: built by the constructor and changed by
    the entry points (and by the send-pump on its own). *)
Inductive reachable : Uart -> Prop :=
| reach_new (aInstance : Interp) : reachable (Uart_new aInstance)
| reach_Output u aBuf :
    reachable u -> reachable (Output aBuf u).1.2
| reach_Send u :
    reachable u -> reachable (Send u).1
| reach_SendDoneTask u :
    reachable u -> reachable (SendDoneTask u).1
| reach_ReceiveTask u aBuf u' evs :
    reachable u -> ReceiveTask aBuf u = Ok tt u' evs -> reachable u'.

(** [head] is an offset into the ring. *)
Definition head_ok (u : Uart) : Prop := 0 <= mTxHead u < kTxBufferSize.

(** in-flight length <= queued length <= capacity *)
Definition ring_inv (u : Uart) : Prop :=
  0 <= mSendLength u /\ mSendLength u <= mTxLength u
  /\ mTxLength u <= kTxBufferSize.

(** Nothing in flight only when nothing is queued. *)
Definition idle_empty (u : Uart) : Prop :=
  mSendLength u = 0 -> mTxLength u = 0.

Definition tx_array_ok (u : Uart) : Prop :=
  length (mTxBuffer u) = Z.to_nat kTxBufferSize.

Definition tx_ok (u : Uart) : Prop :=
  tx_array_ok u /\ head_ok u /\ ring_inv u /\ idle_empty u.

(** [n] bytes of the ring read from offset [h] on, around the end. *)
Fixpoint ring_read (buf : list Z) (h : Z) (n : nat) : list Z :=
  match n with
  | O => []
  | S n' => buf !!! Z.to_nat (h mod kTxBufferSize) :: ring_read buf (h + 1) n'
  end.

(** The queued bytes, oldest first. *)
Definition pending (u : Uart) : list Z :=
  ring_read (mTxBuffer u) (mTxHead u) (Z.to_nat (mTxLength u)).

(** The line in the receive buffer. *)
Definition rx_line (u : Uart) : list Z :=
  take (Z.to_nat (mRxLength u)) (mRxBuffer u).

Definition rx_array_ok (u : Uart) : Prop :=
  length (mRxBuffer u) = Z.to_nat kRxBufferSize.

(** The state after one turn of the copy loop of [Output], when no
    counter wraps. *)
Definition pushed (c : Z) (u : Uart) : Uart :=
  set_mTxLength (mTxLength u + 1)
    (set_mTxBuffer
       (<[Z.to_nat ((mTxHead u + mTxLength u) mod kTxBufferSize) := c]>
          (mTxBuffer u)) u).

(** An operation keeps a property of the object whenever it returns. *)
Definition preserves (P : Uart -> Prop) {A} (m : M A) : Prop :=
  forall u a u' evs, P u -> m u = Ok a u' evs -> P u'.

(** The driver's log [sent] and the log [wr] of the bytes given to
    [Output] agree with the ring: all of [wr] but the queued bytes has been
    sent and completed, and the span in flight has been sent as well. *)
Definition in_sync (u : Uart) (sent wr : list Z) : Prop :=
  exists completed,
    sent = completed ++ take (Z.to_nat (mSendLength u)) (pending u)
    /\ wr = completed ++ pending u.

(** The counters after a completed send, when no counter wraps: what
    [SendDoneTask] hands to the send-pump. *)
Definition advanced (u : Uart) : Uart :=
  set_mSendLength 0
    (set_mTxLength (mTxLength u - mSendLength u)
       (set_mTxHead ((mTxHead u + mSendLength u) mod kTxBufferSize) u)).

(** Two states of the object that differ in the receive line only. *)
Definition same_tx (v u : Uart) : Prop :=
  mTxBuffer v = mTxBuffer u /\ mTxHead v = mTxHead u /\
  mTxLength v = mTxLength u /\ mSendLength v = mSendLength u /\
  mInterpreter v = mInterpreter u.

(** A byte that reaches the [default] label of the [switch]. *)
Definition plain (c : Z) : Prop :=
  c <> 13 /\ c <> 10 /\ c <> 8 /\ c <> 127
  /\ (OPENTHREAD_EXAMPLES_POSIX = true -> c <> 3).

(** The receive side of every reachable state: the array has its size,
    the length is at most the capacity (which it can reach), and no byte
    of the line is a line terminator. *)
Definition rx_ok (u : Uart) : Prop :=
  rx_array_ok u /\ 0 <= mRxLength u <= kRxBufferSize
  /\ Forall (fun c => c <> 13 /\ c <> 10) (rx_line u).

(** The span in flight ends inside the array. *)
Definition span_ok (u : Uart) : Prop :=
  mTxHead u + mSendLength u <= kTxBufferSize.

(** A backspace or a delete byte. *)
Definition erasing (c : Z) : Prop := c = 8 \/ c = 127.

(** * Properties *)

(** ** Facts that hold for every capacity *)

Lemma wrap16_small z : 0 <= z < 65536 -> wrap16 z = z.
Proof. intros Hz. unfold wrap16. now apply Z.mod_small. Qed.

Lemma after_calls_app e1 e2 w :
  after_calls (e1 ++ e2) w = after_calls e1 (after_calls e2 w).
Proof. destruct w; cbn; [reflexivity | now rewrite app_assoc]. Qed.

Lemma Send_busy u : mSendLength u <> 0 -> Send u = (u, []).
Proof.
  intros Hs. unfold Send.
  destruct (mSendLength u =? 0) eqn:E; [apply Z.eqb_eq in E; lia | reflexivity].
Qed.

Lemma Send_events_positive u aBuf n :
  EvUartSend aBuf n ∈ (Send u).2 -> 0 < n.
Proof.
  unfold Send. repeat case_match; cbn [snd]; intros Hin;
    try (apply elem_of_nil in Hin; contradiction).
  all: apply list_elem_of_singleton in Hin; injection Hin as _ ->.
  all: match goal with E : (_ >? 0) = true |- _ =>
         apply Z.gtb_lt in E; exact E end.
Qed.

Lemma Output_loop_frame bs : forall u,
  mTxHead (Output_loop bs u) = mTxHead u /\
  mSendLength (Output_loop bs u) = mSendLength u /\
  mRxBuffer (Output_loop bs u) = mRxBuffer u /\
  mRxLength (Output_loop bs u) = mRxLength u /\
  mInterpreter (Output_loop bs u) = mInterpreter u /\
  length (mTxBuffer (Output_loop bs u)) = length (mTxBuffer u).
Proof.
  induction bs as [|c bs IH]; intros u; [now cbn|].
  cbn [Output_loop].
  destruct (IH (set_mTxLength (wrap16 (mTxLength u + 1))
                 (set_mTxBuffer
                    (<[Z.to_nat (wrap16 ((mTxHead u + mTxLength u)
                                           mod kTxBufferSize)) := c]>
                       (mTxBuffer u)) u)))
    as (-> & -> & -> & -> & -> & ->).
  cbn. now rewrite length_insert.
Qed.

Lemma Send_frame u :
  mTxBuffer (Send u).1 = mTxBuffer u /\
  mTxHead (Send u).1 = mTxHead u /\
  mTxLength (Send u).1 = mTxLength u /\
  mRxBuffer (Send u).1 = mRxBuffer u /\
  mRxLength (Send u).1 = mRxLength u /\
  mInterpreter (Send u).1 = mInterpreter u.
Proof. unfold Send. repeat case_match; cbn; tauto. Qed.

Lemma Output_array aBuf u :
  length (mTxBuffer (Output aBuf u).1.2) = length (mTxBuffer u).
Proof.
  unfold Output.
  match goal with |- context [Send ?x] =>
    destruct (Send_frame x) as (E & _); destruct (Send x) eqn:ES end.
  cbn in *. rewrite E.
  now destruct (Output_loop_frame
                  (take (Z.to_nat
                     (if wrap16 (Z.of_nat (length aBuf))
                           >? wrap16 (kTxBufferSize - mTxLength u)
                      then wrap16 (kTxBufferSize - mTxLength u)
                      else wrap16 (Z.of_nat (length aBuf)))) aBuf) u)
    as (_ & _ & _ & _ & _ & ->).
Qed.

Lemma Output_busy aBuf u :
  mSendLength u <> 0 ->
  (Output aBuf u).2 = [] /\ mSendLength (Output aBuf u).1.2 = mSendLength u.
Proof.
  intros Hs. unfold Output.
  match goal with |- context [Send ?x] => set (u1 := x) end.
  assert (E : mSendLength u1 = mSendLength u).
  { subst u1. now destruct (Output_loop_frame
      (take (Z.to_nat
         (if wrap16 (Z.of_nat (length aBuf))
               >? wrap16 (kTxBufferSize - mTxLength u)
          then wrap16 (kTxBufferSize - mTxLength u)
          else wrap16 (Z.of_nat (length aBuf)))) aBuf) u) as (_ & -> & _). }
  rewrite Send_busy by congruence. cbn. now split.
Qed.

(** C6. While a send is in flight ([mSendLength] is not 0), no sequence
    of calls of [Output] and of the send-pump calls [otPlatUartSend], and
    the in-flight length stays as it is: only [SendDoneTask] ends the
    outstanding send. *)
Theorem one_send_in_flight (ops : list TxOp) (u : Uart) :
  mSendLength u <> 0 ->
  forallb (fun op => negb (is_SendDone op)) ops = true ->
  (run_tx ops u).2 = [] /\ mSendLength (run_tx ops u).1 = mSendLength u.
Proof.
  revert u. induction ops as [|op ops IH]; intros u Hs Hops; [now cbn|].
  cbn [forallb] in Hops. apply andb_prop in Hops as [Hop Hops].
  cbn [run_tx].
  assert (H1 : (step_tx op u).2 = []
               /\ mSendLength (step_tx op u).1 = mSendLength u).
  { destruct op as [aBuf| |]; cbn in Hop |- *; try discriminate.
    - pose proof (Output_busy aBuf u Hs) as H.
      now destruct (Output aBuf u) as [[n u1] e1].
    - now rewrite Send_busy. }
  destruct (step_tx op u) as [u1 e1]. cbn in H1. destruct H1 as [-> E1].
  specialize (IH u1 ltac:(congruence) Hops).
  destruct (run_tx ops u1) as [u2 e2]. cbn in *. destruct IH as [-> ->].
  now split.
Qed.

Lemma ring_read_length buf n : forall h, length (ring_read buf h n) = n.
Proof. induction n as [|n IH]; intros h; cbn; [reflexivity | now rewrite IH]. Qed.

Lemma pending_length u : length (pending u) = Z.to_nat (mTxLength u).
Proof. apply ring_read_length. Qed.

Lemma pending_Send u : pending (Send u).1 = pending u.
Proof.
  unfold pending. now destruct (Send_frame u) as (-> & -> & -> & _).
Qed.

Lemma sent_bytes_app e1 e2 :
  sent_bytes (e1 ++ e2) = sent_bytes e1 ++ sent_bytes e2.
Proof.
  induction e1 as [|[b n|b n] e1 IH]; cbn; [reflexivity| |exact IH].
  now rewrite IH, app_assoc.
Qed.

Lemma written_app ops1 ops2 :
  written (ops1 ++ ops2) = written ops1 ++ written ops2.
Proof.
  induction ops1 as [|[b| |] ops1 IH]; cbn; try exact IH; [reflexivity|].
  now rewrite IH, app_assoc.
Qed.

Lemma in_sync_queued u sent wr :
  in_sync u sent wr -> 0 <= mTxLength u ->
  mTxLength u <= Z.of_nat (length wr).
Proof.
  intros (done & _ & ->) H0. rewrite length_app, pending_length. lia.
Qed.

Lemma in_sync_empty u :
  mTxLength u = 0 -> in_sync u [] [].
Proof.
  intros Hl. exists []. unfold pending. rewrite Hl.
  change (Z.to_nat 0) with O. cbn. now rewrite take_nil.
Qed.

Lemma Output_rx aBuf u :
  mRxBuffer (Output aBuf u).1.2 = mRxBuffer u /\
  mRxLength (Output aBuf u).1.2 = mRxLength u /\
  mInterpreter (Output aBuf u).1.2 = mInterpreter u.
Proof.
  unfold Output.
  match goal with |- context [Send (Output_loop ?b u)] =>
    destruct (Send_frame (Output_loop b u)) as (_ & _ & _ & E1 & E2 & E3);
    destruct (Output_loop_frame b u) as (_ & _ & F1 & F2 & F3 & _);
    destruct (Send (Output_loop b u)) end.
  cbn in *. repeat split; congruence.
Qed.

Lemma store_Rx_out i c u :
  kRxBufferSize <= i -> store_Rx i c u = Stopped OutOfBounds.
Proof.
  intros Hi. unfold store_Rx, in_Rx.
  destruct (i <? kRxBufferSize) eqn:E2; [apply Z.ltb_lt in E2; lia|].
  now rewrite andb_false_r.
Qed.

Lemma same_tx_eq v u :
  same_tx v u ->
  v = set_mRxLength (mRxLength v) (set_mRxBuffer (mRxBuffer v) u).
Proof.
  intros (E1 & E2 & E3 & E4 & E5).
  destruct v, u; cbn in *. now subst.
Qed.

Lemma Send_no_ProcessLine u : filter is_ProcessLine (Send u).2 = [].
Proof. unfold Send. now repeat case_match. Qed.

Lemma Output_no_ProcessLine aBuf u :
  filter is_ProcessLine (Output aBuf u).2 = [].
Proof.
  unfold Output.
  match goal with |- context [Send ?x] =>
    pose proof (Send_no_ProcessLine x) as H; destruct (Send x) end.
  exact H.
Qed.

Lemma run_Reply_no_ProcessLine r : forall u,
  filter is_ProcessLine (run_Reply r u).2 = [].
Proof.
  induction r as [i|aBuf k IH]; intros u; cbn; [reflexivity|].
  pose proof (Output_no_ProcessLine aBuf u) as H1.
  destruct (Output aBuf u) as [[n u1] e1]. cbn in H1.
  specialize (IH n u1). destruct (run_Reply (k n) u1) as [u2 e2].
  cbn in *. now rewrite filter_app, H1, IH.
Qed.

Lemma bind_call_Output {B} aBuf (f : Z -> M B) u :
  bind (call_Output aBuf) f u =
  match f (Output aBuf u).1.1 (Output aBuf u).1.2 with
  | Ok b u2 e2 => Ok b u2 ((Output aBuf u).2 ++ e2)
  | Stopped w => Stopped (after_calls (Output aBuf u).2 w)
  end.
Proof.
  unfold bind, call_Output. now destruct (Output aBuf u) as [[n u1] e1].
Qed.

Lemma bind_gets {A B} (g : Uart -> A) (f : A -> M B) u :
  bind (gets g) f u = f (g u) u.
Proof. unfold bind, gets. now destruct (f (g u) u) as [|[]]. Qed.

Lemma same_tx_trans a b c : same_tx a b -> same_tx b c -> same_tx a c.
Proof. unfold same_tx. intuition congruence. Qed.

Lemma bind_Ok {A B} (m : M A) (f : A -> M B) u b u2 e :
  bind m f u = Ok b u2 e ->
  exists a u1 e1 e2,
    m u = Ok a u1 e1 /\ f a u1 = Ok b u2 e2 /\ e = e1 ++ e2.
Proof.
  unfold bind. destruct (m u) as [a u1 e1|]; [|discriminate].
  destruct (f a u1) as [b' u2' e2|] eqn:E2; [|discriminate].
  intros E. inversion E; subst. now exists a, u1, e1, e2.
Qed.

Lemma SendDoneTask_rx u :
  mRxBuffer (SendDoneTask u).1 = mRxBuffer u /\
  mRxLength (SendDoneTask u).1 = mRxLength u.
Proof.
  unfold SendDoneTask.
  match goal with |- context [Send ?x] =>
    destruct (Send_frame x) as (_ & _ & _ & -> & -> & _) end.
  now cbn.
Qed.

Lemma ReceiveByte_eol c u :
  c = 13 \/ c = 10 ->
  ReceiveByte c u =
  (call_Output CRNL ;;
   n <- gets mRxLength ;;
   (if n >? 0 then store_Rx n 0 ;; ProcessCommand else ret tt) ;;
   call_Output sCommandPrompt ;;
   ret tt) u.
Proof. intros Hc. unfold ReceiveByte. now destruct Hc as [-> | ->]. Qed.

Lemma ReceiveByte_del c u :
  c = 8 \/ c = 127 ->
  ReceiveByte c u =
  (n <- gets mRxLength ;;
   (if n >? 0 then call_Output sEraseString ;; drop_last_Rx
    else ret tt)) u.
Proof.
  intros Hc. unfold ReceiveByte.
  destruct Hc as [-> | ->]; cbn [Z.eqb Pos.eqb orb];
    now rewrite andb_false_r.
Qed.

Lemma ReceiveByte_exit u :
  OPENTHREAD_EXAMPLES_POSIX = true ->
  ReceiveByte 3 u = Stopped (ProcessExit u []).
Proof. intros E. unfold ReceiveByte. now rewrite E. Qed.

Lemma ProcessCommand_resets u a u' evs :
  ProcessCommand u = Ok a u' evs -> mRxLength u' = 0.
Proof.
  unfold ProcessCommand. intros E.
  repeat (apply bind_Ok in E; destruct E as (? & ? & ? & ? & _ & E & _)).
  unfold modify in E. now inversion E.
Qed.

Lemma ReceiveByte_plain c u :
  plain c ->
  ReceiveByte c u =
  (call_Output [c] ;;
   n <- gets mRxLength ;;
   store_Rx n c ;;
   modify (set_mRxLength (wrap16 (n + 1)))) u.
Proof.
  intros (H13 & H10 & H8 & H127 & H3). unfold ReceiveByte.
  apply Z.eqb_neq in H13, H10, H8, H127. rewrite H13, H10, H8, H127.
  cbn [orb].
  destruct OPENTHREAD_EXAMPLES_POSIX; cbn [andb]; [|reflexivity].
  specialize (H3 eq_refl). apply Z.eqb_neq in H3. now rewrite H3.
Qed.

Lemma ReceiveTask_app a : forall b u u1 e1,
  ReceiveTask a u = Ok tt u1 e1 ->
  ReceiveTask (a ++ b) u =
  match ReceiveTask b u1 with
  | Ok x u2 e2 => Ok x u2 (e1 ++ e2)
  | Stopped w => Stopped (after_calls e1 w)
  end.
Proof.
  induction a as [|c a IH]; intros b u u1 e1 E.
  - cbn in E. inversion E; subst. cbn.
    now destruct (ReceiveTask b u1) as [|[]].
  - cbn [app ReceiveTask] in *. unfold bind in *.
    destruct (ReceiveByte c u) as [[] v e0|]; [|discriminate].
    destruct (ReceiveTask a v) as [[] v' e0'|] eqn:Ea; [|discriminate].
    inversion E; subst. rewrite (IH b v u1 e0' Ea).
    destruct (ReceiveTask b u1).
    + now rewrite app_assoc.
    + now rewrite after_calls_app.
Qed.

(** ** What the line assembler keeps *)

Section Preserves.

Variable P : Uart -> Prop.
Hypothesis P_store_Rx :
  forall u i c, P u -> P (set_mRxBuffer (<[i:=c]> (mRxBuffer u)) u).
Hypothesis P_set_mRxLength : forall u v, P u -> P (set_mRxLength v u).
Hypothesis P_set_mInterpreter : forall u v, P u -> P (set_mInterpreter v u).
Hypothesis P_Output : forall u aBuf, P u -> P (Output aBuf u).1.2.

Lemma preserves_ret {A} (a : A) : preserves P (ret a).
Proof. intros u a' u' evs HP E. now inversion E; subst. Qed.

Lemma preserves_bind {A B} (m : M A) (f : A -> M B) :
  preserves P m -> (forall a, preserves P (f a)) -> preserves P (bind m f).
Proof.
  intros Hm Hf u b u' evs HP E. unfold bind in E.
  destruct (m u) as [a u1 e1|] eqn:E1; [|discriminate].
  destruct (f a u1) as [b' u2 e2|] eqn:E2; [|discriminate].
  inversion E; subst. eapply Hf; [|exact E2]. eapply Hm; eauto.
Qed.

Lemma preserves_if {A} (b : bool) (m1 m2 : M A) :
  preserves P m1 -> preserves P m2 -> preserves P (if b then m1 else m2).
Proof. now destruct b. Qed.

Lemma preserves_call_exit {A} : preserves P (@call_exit A).
Proof. intros u a u' evs HP E. discriminate. Qed.

Lemma preserves_gets {A} (f : Uart -> A) : preserves P (gets f).
Proof. intros u a u' evs HP E. now inversion E; subst. Qed.

Lemma preserves_emit e : preserves P (emit e).
Proof. intros u a u' evs HP E. now inversion E; subst. Qed.

Lemma preserves_set_mRxLength v : preserves P (modify (set_mRxLength v)).
Proof. intros u a u' evs HP E. inversion E; subst. now apply P_set_mRxLength. Qed.

Lemma preserves_load_Rx i : preserves P (load_Rx i).
Proof.
  intros u a u' evs HP E. unfold load_Rx in E.
  repeat case_match; try discriminate. now inversion E; subst.
Qed.

Lemma preserves_store_Rx i c : preserves P (store_Rx i c).
Proof.
  intros u a u' evs HP E. unfold store_Rx in E.
  repeat case_match; try discriminate. inversion E; subst.
  now apply P_store_Rx.
Qed.

Lemma preserves_call_Output aBuf : preserves P (call_Output aBuf).
Proof.
  intros u a u' evs HP E. unfold call_Output in E.
  pose proof (P_Output u aBuf HP) as H.
  destruct (Output aBuf u) as [[n u1] e1]. inversion E; subst. exact H.
Qed.

Lemma run_Reply_keeps r : forall u, P u -> P (run_Reply r u).1.
Proof.
  induction r as [i|aBuf k IH]; intros u HP; cbn.
  - now apply P_set_mInterpreter.
  - pose proof (P_Output u aBuf HP) as H1.
    destruct (Output aBuf u) as [[n u1] e1]. cbn in H1.
    specialize (IH n u1 H1). now destruct (run_Reply (k n) u1).
Qed.

Lemma preserves_call_Reply r : preserves P (call_Reply r).
Proof.
  intros u a u' evs HP E. unfold call_Reply in E.
  pose proof (run_Reply_keeps r u HP) as H.
  destruct (run_Reply r u) as [u1 e1]. inversion E; subst. exact H.
Qed.

Ltac preserves_step :=
  first [ apply preserves_bind; [|intros ?]
        | apply preserves_if
        | apply preserves_ret
        | apply preserves_call_exit
        | apply preserves_gets
        | apply preserves_emit
        | apply preserves_set_mRxLength
        | apply preserves_load_Rx
        | apply preserves_store_Rx
        | apply preserves_call_Output
        | apply preserves_call_Reply ].

Lemma preserves_drop_last_Rx : preserves P drop_last_Rx.
Proof. unfold drop_last_Rx. repeat preserves_step. Qed.

Lemma preserves_strip_Rx c : preserves P (strip_Rx c).
Proof.
  unfold strip_Rx.
  repeat first [apply preserves_drop_last_Rx | preserves_step].
Qed.

Lemma preserves_ProcessCommand : preserves P ProcessCommand.
Proof.
  unfold ProcessCommand.
  repeat first [apply preserves_strip_Rx | preserves_step].
Qed.

Lemma preserves_ReceiveByte c : preserves P (ReceiveByte c).
Proof.
  unfold ReceiveByte.
  repeat first [apply preserves_drop_last_Rx
               | apply preserves_ProcessCommand | preserves_step].
Qed.

Lemma preserves_ReceiveTask aBuf : preserves P (ReceiveTask aBuf).
Proof.
  induction aBuf as [|c aBuf IH]; cbn [ReceiveTask].
  - apply preserves_ret.
  - apply preserves_bind; [apply preserves_ReceiveByte | intros _; exact IH].
Qed.

End Preserves.

(** ** The line assembler *)

Section RxRange.

(** [mRxLength] is a [uint16_t] that has to count up to the capacity. *)
Hypothesis kRx_range : 0 < kRxBufferSize <= 65535.

Lemma store_Rx_in i c u :
  0 <= i < kRxBufferSize -> rx_array_ok u ->
  store_Rx i c u
  = Ok tt (set_mRxBuffer (<[Z.to_nat i := c]> (mRxBuffer u)) u) [].
Proof.
  intros Hi Ha. unfold store_Rx, in_Rx.
  destruct (0 <=? i) eqn:E1; [|apply Z.leb_gt in E1; lia].
  destruct (i <? kRxBufferSize) eqn:E2; [|apply Z.ltb_ge in E2; lia].
  destruct (Z.to_nat i <? length (mRxBuffer u))%nat eqn:E3;
    [reflexivity|].
  apply Nat.ltb_ge in E3. rewrite Ha in E3. lia.
Qed.

Lemma drop_last_Rx_in u :
  0 < mRxLength u <= kRxBufferSize -> rx_array_ok u ->
  drop_last_Rx u
  = Ok tt (set_mRxBuffer (<[Z.to_nat (mRxLength u - 1) := 0]> (mRxBuffer u))
             (set_mRxLength (mRxLength u - 1) u)) [].
Proof.
  intros Hn Ha. unfold drop_last_Rx, bind, gets, modify.
  cbn [mRxLength set_mRxLength]. rewrite wrap16_small by lia.
  rewrite store_Rx_in by (assumption || lia). reflexivity.
Qed.

Lemma rx_line_last v :
  rx_array_ok v -> 0 < mRxLength v <= kRxBufferSize ->
  last (rx_line v) = mRxBuffer v !! Z.to_nat (mRxLength v - 1)
  /\ length (rx_line v) = Z.to_nat (mRxLength v).
Proof.
  intros Ha Hn. unfold rx_line.
  assert (El : length (take (Z.to_nat (mRxLength v)) (mRxBuffer v))
               = Z.to_nat (mRxLength v)).
  { rewrite length_take, Ha. lia. }
  split; [|exact El]. rewrite last_lookup, El.
  rewrite lookup_take_lt by lia. f_equal. lia.
Qed.

Lemma strip_Rx_spec c v :
  rx_array_ok v -> 0 < mRxLength v <= kRxBufferSize ->
  exists v',
    strip_Rx c v = Ok tt v' [] /\ same_tx v' v /\ rx_array_ok v' /\
    rx_line v' = strip_last c (rx_line v) /\
    0 <= mRxLength v' <= mRxLength v /\
    (mRxBuffer v !! Z.to_nat (mRxLength v) = Some 0 ->
     mRxBuffer v' !! Z.to_nat (mRxLength v') = Some 0).
Proof.
  intros Ha Hn. destruct (rx_line_last v Ha Hn) as [Elast Elen].
  destruct (lookup_lt_is_Some_2 (mRxBuffer v) (Z.to_nat (mRxLength v - 1)))
    as [x Hx]; [rewrite Ha; lia|].
  assert (Eload : load_Rx (mRxLength v - 1) v = Ok x v []).
  { unfold load_Rx, in_Rx. rewrite Hx.
    destruct (0 <=? mRxLength v - 1) eqn:E1; [|apply Z.leb_gt in E1; lia].
    destruct (mRxLength v - 1 <? kRxBufferSize) eqn:E2;
      [reflexivity | apply Z.ltb_ge in E2; lia]. }
  unfold strip_Rx, bind at 1 2, gets. rewrite Eload.
  unfold strip_last. rewrite Elast, Hx.
  destruct (x =? c) eqn:Ec.
  - rewrite drop_last_Rx_in by assumption.
    eexists. split; [reflexivity|].
    split; [now cbn|]. split; [|split; [|split]].
    + unfold rx_array_ok. cbn. now rewrite length_insert.
    + unfold rx_line. cbn [mRxLength mRxBuffer set_mRxBuffer set_mRxLength].
      rewrite take_insert_ge by lia. rewrite length_take, Ha, take_take.
      f_equal. lia.
    + cbn. lia.
    + intros _. cbn. apply list_lookup_insert_eq. rewrite Ha. lia.
  - exists v. split; [reflexivity|].
    split; [now cbn|]. split; [assumption|]. split; [reflexivity|].
    split; [lia|tauto].
Qed.

Lemma rx_line_length v :
  rx_array_ok v -> 0 <= mRxLength v <= kRxBufferSize ->
  length (rx_line v) = Z.to_nat (mRxLength v).
Proof. intros Ha Hn. unfold rx_line. rewrite length_take, Ha. lia. Qed.

Lemma ProcessCommand_spec v :
  rx_array_ok v -> 0 < mRxLength v <= kRxBufferSize ->
  strip_last 10 (rx_line v) <> [] ->
  mRxBuffer v !! Z.to_nat (mRxLength v) = Some 0 ->
  let line := strip_eol (rx_line v) in
  let len := Z.of_nat (length line) in
  exists aBuf,
    take (length line) aBuf = line /\ aBuf !! length line = Some 0 /\
    let r := run_Reply (ProcessLine (mInterpreter v) aBuf len)
               (set_mRxLength len (set_mRxBuffer aBuf v)) in
    ProcessCommand v = Ok tt (set_mRxLength 0 r.1)
                          (EvProcessLine aBuf len :: r.2).
Proof.
  intros Ha Hn Hne H0 line len.
  destruct (strip_Rx_spec 10 v Ha Hn) as (v1 & E1 & S1 & A1 & L1 & N1 & Z1).
  assert (Hn1 : 0 < mRxLength v1 <= kRxBufferSize).
  { split; [|lia]. destruct (Z.eq_dec (mRxLength v1) 0) as [E|E]; [|lia].
    exfalso. apply Hne. rewrite <- L1. unfold rx_line. now rewrite E. }
  destruct (strip_Rx_spec 13 v1 A1 Hn1)
    as (v2 & E2 & S2 & A2 & L2 & N2 & Z2).
  pose proof (same_tx_trans _ _ _ S2 S1) as S.
  assert (EL : rx_line v2 = line).
  { subst line. unfold strip_eol. now rewrite <- L1, <- L2. }
  assert (Elen : mRxLength v2 = len).
  { subst len. rewrite <- EL, rx_line_length by (assumption || lia). lia. }
  exists (mRxBuffer v2). split; [|split].
  - rewrite <- EL at 2. unfold rx_line. f_equal.
    rewrite <- EL, rx_line_length by (assumption || lia). reflexivity.
  - rewrite <- EL, rx_line_length by (assumption || lia). auto.
  - intros r. unfold ProcessCommand.
    unfold bind at 1. rewrite E1. unfold bind at 1. rewrite E2.
    unfold bind, gets, emit, call_Reply, modify.
    rewrite Elen. destruct S as (_ & _ & _ & _ & Ei). rewrite Ei.
    assert (Ev : v2 = set_mRxLength len (set_mRxBuffer (mRxBuffer v2) v)).
    { rewrite <- Elen. apply same_tx_eq. now apply same_tx_trans with v1. }
    rewrite Ev at 2. fold r. destruct r as [u' e']. cbn.
    now rewrite app_nil_r.
Qed.

Lemma ReceiveByte_plain_room c u :
  plain c -> rx_array_ok u -> 0 <= mRxLength u < kRxBufferSize ->
  exists u' evs,
    ReceiveByte c u = Ok tt u' evs /\ rx_array_ok u' /\
    mRxLength u' = mRxLength u + 1 /\
    mRxBuffer u' = <[Z.to_nat (mRxLength u) := c]> (mRxBuffer u).
Proof.
  intros Hc Ha Hn. rewrite ReceiveByte_plain by assumption.
  destruct (Output_rx [c] u) as (Eb & El & _).
  rewrite bind_call_Output, bind_gets, El.
  unfold bind. rewrite store_Rx_in by (unfold rx_array_ok; congruence || lia).
  unfold modify. rewrite wrap16_small by lia.
  do 2 eexists. split; [reflexivity|].
  unfold rx_array_ok. cbn. rewrite length_insert, Eb.
  split; [exact Ha|]. split; reflexivity.
Qed.

Lemma ReceiveByte_plain_full c u :
  plain c -> kRxBufferSize <= mRxLength u ->
  ReceiveByte c u = Stopped OutOfBounds.
Proof.
  intros Hc Hn. rewrite ReceiveByte_plain by assumption.
  destruct (Output_rx [c] u) as (_ & El & _).
  rewrite bind_call_Output, bind_gets, El.
  unfold bind. now rewrite store_Rx_out.
Qed.

(** On a full receive buffer the NUL that a terminator appends is
    stored past the end of the array as well. *)
Lemma ReceiveByte_eol_full c u :
  c = 13 \/ c = 10 -> kRxBufferSize <= mRxLength u ->
  ReceiveByte c u = Stopped OutOfBounds.
Proof.
  intros Hc Hn. rewrite ReceiveByte_eol by assumption.
  destruct (Output_rx CRNL u) as (_ & El & _).
  rewrite bind_call_Output, bind_gets, El.
  destruct (mRxLength u >? 0) eqn:E0;
    [|rewrite Z.gtb_ltb in E0; apply Z.ltb_ge in E0; lia].
  unfold bind. now rewrite store_Rx_out.
Qed.

Lemma ReceiveTask_plain c n : forall u,
  plain c -> rx_array_ok u -> 0 <= mRxLength u ->
  mRxLength u + Z.of_nat n <= kRxBufferSize ->
  exists u' evs,
    ReceiveTask (replicate n c) u = Ok tt u' evs /\ rx_array_ok u' /\
    mRxLength u' = mRxLength u + Z.of_nat n.
Proof.
  induction n as [|n IH]; intros u Hc Ha H0 Hn.
  - exists u, []. cbn. split; [reflexivity|]. split; [assumption|lia].
  - destruct (ReceiveByte_plain_room c u Hc Ha ltac:(lia))
      as (u1 & e1 & E1 & A1 & L1 & _).
    destruct (IH u1 Hc A1 ltac:(lia) ltac:(lia)) as (u2 & e2 & E2 & A2 & L2).
    exists u2, (e1 ++ e2). cbn [replicate ReceiveTask]. unfold bind.
    rewrite E1, E2. split; [reflexivity|]. split; [assumption|lia].
Qed.

Lemma ReceiveByte_del_eval c u :
  c = 8 \/ c = 127 ->
  (mRxLength u = 0 -> ReceiveByte c u = Ok tt u []) /\
  (0 < mRxLength u <= kRxBufferSize -> rx_array_ok u ->
   ReceiveByte c u =
   Ok tt (set_mRxBuffer
            (<[Z.to_nat (mRxLength u - 1) := 0]> (mRxBuffer u))
            (set_mRxLength (mRxLength u - 1) (Output sEraseString u).1.2))
      (Output sEraseString u).2).
Proof.
  intros Hc. rewrite ReceiveByte_del by assumption. rewrite bind_gets.
  split.
  - intros ->. reflexivity.
  - intros Hn Ha.
    destruct (mRxLength u >? 0) eqn:E0;
      [|rewrite Z.gtb_ltb in E0; apply Z.ltb_ge in E0; lia].
    destruct (Output_rx sEraseString u) as (Eb & El & _).
    rewrite bind_call_Output.
    rewrite drop_last_Rx_in by (unfold rx_array_ok; congruence || lia).
    now rewrite El, Eb, app_nil_r.
Qed.

Lemma rx_ok_ext u v :
  mRxBuffer v = mRxBuffer u -> mRxLength v = mRxLength u ->
  rx_ok u -> rx_ok v.
Proof.
  unfold rx_ok, rx_array_ok, rx_line. intros -> ->. tauto.
Qed.

Lemma rx_ok_empty u : rx_array_ok u -> mRxLength u = 0 -> rx_ok u.
Proof.
  intros Ha Hl. unfold rx_ok, rx_line. rewrite Hl.
  split; [assumption|]. split; [lia|]. now apply Forall_nil.
Qed.

Lemma ProcessCommand_rx_array_ok : preserves rx_array_ok ProcessCommand.
Proof.
  apply preserves_ProcessCommand; try (intros; assumption).
  - intros u i c H. unfold rx_array_ok. cbn. now rewrite length_insert.
  - intros u b H. unfold rx_array_ok.
    now destruct (Output_rx b u) as (-> & _).
Qed.

Lemma ReceiveByte_rx_ok c u u' evs :
  rx_ok u -> ReceiveByte c u = Ok tt u' evs -> rx_ok u'.
Proof.
  intros Hok E. pose proof Hok as (Ha & Hn & Hf).
  destruct (decide (c = 13 \/ c = 10)) as [Ht|Ht].
  - rewrite ReceiveByte_eol in E by assumption.
    rewrite bind_call_Output, bind_gets in E.
    destruct (Output_rx CRNL u) as (Eb & El & _).
    set (u1 := (Output CRNL u).1.2) in *.
    assert (Hok1 : rx_ok u1) by now apply (rx_ok_ext u).
    match type of E with
    | match ?x with _ => _ end = _ =>
        destruct x as [[] v ev|] eqn:E1; [|discriminate]
    end.
    inversion E; subst. clear E.
    apply bind_Ok in E1 as (a & w & e1 & e2 & E2 & E3 & _).
    rewrite bind_call_Output in E3. unfold ret in E3.
    inversion E3; subst. clear E3.
    destruct (Output_rx sCommandPrompt w) as (Eb2 & El2 & _).
    apply (rx_ok_ext w); try assumption.
    rewrite El in E2. destruct (mRxLength u >? 0) eqn:E0.
    + apply bind_Ok in E2 as (a0 & w0 & e3 & e4 & E4 & E5 & _).
      apply rx_ok_empty.
      * eapply ProcessCommand_rx_array_ok; [|exact E5].
        unfold store_Rx in E4. repeat case_match; try discriminate.
        inversion E4; subst. unfold rx_array_ok. cbn.
        rewrite length_insert. now destruct Hok1.
      * eapply ProcessCommand_resets; exact E5.
    + unfold ret in E2. now inversion E2; subst.
  - destruct (decide (c = 8 \/ c = 127)) as [Hd|Hd].
    + destruct (ReceiveByte_del_eval c u Hd) as [H0 H1].
      destruct (Z.eq_dec (mRxLength u) 0) as [E0|E0].
      * rewrite H0 in E by assumption. now inversion E; subst.
      * rewrite H1 in E by (assumption || lia). inversion E; subst. clear E.
        unfold rx_ok, rx_array_ok, rx_line. cbn.
        rewrite length_insert. split; [assumption|]. split; [lia|].
        rewrite take_insert_ge by lia.
        replace (take (Z.to_nat (mRxLength u - 1)) (mRxBuffer u))
          with (take (Z.to_nat (mRxLength u - 1)) (rx_line u)).
        { now apply Forall_take. }
        unfold rx_line. rewrite take_take. f_equal. lia.
    + destruct (decide (OPENTHREAD_EXAMPLES_POSIX = true /\ c = 3))
        as [[Hp ->]|Hp].
      * rewrite ReceiveByte_exit in E by assumption. discriminate.
      * assert (Hc : plain c).
        { unfold plain. repeat split; intros ->; tauto. }
        destruct (Z_lt_dec (mRxLength u) kRxBufferSize) as [Hlt|Hge].
        -- destruct (ReceiveByte_plain_room c u Hc Ha ltac:(lia))
             as (u2 & e2 & E2 & A2 & L2 & B2).
           rewrite E2 in E. inversion E; subst. clear E.
           split; [assumption|]. split; [lia|].
           unfold rx_line. rewrite L2, B2.
           replace (Z.to_nat (mRxLength u + 1))
             with (S (Z.to_nat (mRxLength u))) by lia.
           rewrite (take_S_r _ _ c)
             by (apply list_lookup_insert_eq; rewrite Ha; lia).
           rewrite take_insert_ge by lia.
           apply Forall_app. split; [exact Hf|].
           apply Forall_singleton. destruct Hc as (? & ? & _). tauto.
        -- rewrite ReceiveByte_plain_full in E by (assumption || lia).
           discriminate.
Qed.

Lemma ReceiveTask_rx_ok aBuf : forall u u' evs,
  rx_ok u -> ReceiveTask aBuf u = Ok tt u' evs -> rx_ok u'.
Proof.
  induction aBuf as [|c aBuf IH]; intros u u' evs Hok E; cbn in E.
  - now inversion E; subst.
  - apply bind_Ok in E as ([] & u1 & e1 & e2 & E1 & E2 & _).
    eapply IH; [|exact E2]. eapply ReceiveByte_rx_ok; eauto.
Qed.

Lemma reachable_rx_ok u : reachable u -> rx_ok u.
Proof.
  induction 1 as [i|u aBuf _ IH|u _ IH|u _ IH|u aBuf u' evs _ IH E].
  - apply rx_ok_empty; [|reflexivity].
    unfold rx_array_ok. cbn. now rewrite length_replicate.
  - destruct (Output_rx aBuf u) as (Eb & El & _).
    now apply (rx_ok_ext u).
  - destruct (Send_frame u) as (_ & _ & _ & Eb & El & _).
    now apply (rx_ok_ext u).
  - destruct (SendDoneTask_rx u) as (Eb & El).
    now apply (rx_ok_ext u).
  - eapply ReceiveTask_rx_ok; eauto.
Qed.

Lemma strip_last_other c l x :
  last l = Some x -> x <> c -> strip_last c l = l.
Proof.
  intros El Hx. unfold strip_last. rewrite El.
  destruct (x =? c) eqn:E; [apply Z.eqb_eq in E; contradiction | reflexivity].
Qed.

Lemma rx_ok_strip u :
  rx_ok u -> 0 < mRxLength u ->
  strip_last 10 (rx_line u) <> [] /\ strip_eol (rx_line u) = rx_line u.
Proof.
  intros (Ha & Hn & Hf) Hpos.
  destruct (rx_line_last u Ha ltac:(lia)) as [El Elen].
  destruct (lookup_lt_is_Some_2 (mRxBuffer u) (Z.to_nat (mRxLength u - 1)))
    as [x Hx]; [rewrite Ha; lia|].
  rewrite Hx in El.
  assert (Hxt : x <> 13 /\ x <> 10).
  { rewrite Forall_forall in Hf. apply Hf.
    now apply last_Some_elem_of. }
  unfold strip_eol.
  rewrite (strip_last_other 10 _ x El) by tauto.
  rewrite (strip_last_other 13 _ x El) by tauto.
  split; [|reflexivity].
  intros E. rewrite E in Elen. cbn in Elen. lia.
Qed.

(** A carriage return or a line feed, received while the line is
    shorter than the buffer: [CRNL] is passed to [Output] first. On an
    empty line the prompt is passed to [Output] next and nothing else
    happens. On a line of [N > 0] bytes (other than the single byte LF,
    where [ProcessCommand] would read in front of the buffer)
    [ProcessLine] is called once, with a buffer that starts with the
    line less one trailing LF and then one trailing CR, followed by a
    NUL, and with the length of that line; the interpreter's writes go
    to the ring, the receive length becomes 0, and the prompt is passed to
    [Output] last. In a reachable state the array has its size and the
    line holds no CR and no LF: the excluded line does not occur, and
    [ProcessLine] gets the accumulated bytes as they are. *)
Theorem ReceiveByte_terminator (c : Z) (u : Uart) :
  c = 13 \/ c = 10 ->
  rx_array_ok u -> 0 <= mRxLength u < kRxBufferSize ->
  let r1 := Output CRNL u in
  (mRxLength u = 0 ->
     let r2 := Output sCommandPrompt r1.1.2 in
     ReceiveByte c u = Ok tt r2.1.2 (r1.2 ++ r2.2)
     /\ filter is_ProcessLine (r1.2 ++ r2.2) = []
     /\ mRxLength r2.1.2 = 0) /\
  (0 < mRxLength u -> strip_last 10 (rx_line u) <> [] ->
     let line := strip_eol (rx_line u) in
     let len := Z.of_nat (length line) in
     exists aBuf,
       take (length line) aBuf = line /\ aBuf !! length line = Some 0 /\
       let r2 := run_Reply (ProcessLine (mInterpreter u) aBuf len)
                   (set_mRxLength len (set_mRxBuffer aBuf r1.1.2)) in
       let r3 := Output sCommandPrompt (set_mRxLength 0 r2.1) in
       let trace := r1.2 ++ EvProcessLine aBuf len :: r2.2 ++ r3.2 in
       ReceiveByte c u = Ok tt r3.1.2 trace
       /\ filter is_ProcessLine trace = [EvProcessLine aBuf len]
       /\ mRxLength r3.1.2 = 0) /\
  (reachable u ->
     rx_array_ok u /\
     (0 < mRxLength u ->
      strip_last 10 (rx_line u) <> []
      /\ strip_eol (rx_line u) = rx_line u)).
Proof.
  intros Hc Ha Hn r1.
  rewrite (ReceiveByte_eol c u Hc).
  destruct (Output_rx CRNL u) as (Eb & El & Ei). fold r1 in Eb, El, Ei.
  pose proof (Output_no_ProcessLine CRNL u) as F1. fold r1 in F1.
  rewrite bind_call_Output, bind_gets. fold r1. rewrite El.
  set (u1 := r1.1.2) in *.
  split; [|split].
  - intros H0 r2. rewrite H0. cbn [Z.gtb Z.compare].
    destruct (Output_rx sCommandPrompt u1) as (_ & El2 & _).
    pose proof (Output_no_ProcessLine sCommandPrompt u1) as F2.
    fold r2 in El2, F2.
    unfold bind at 1, ret at 1. rewrite bind_call_Output. fold r2.
    unfold ret. cbn [app].
    rewrite app_nil_r, filter_app, F1, F2.
    repeat split. congruence.
  - intros Hpos Hne line len.
    destruct (mRxLength u >? 0) eqn:E0;
      [|rewrite Z.gtb_ltb in E0; apply Z.ltb_ge in E0; lia].
    set (v := set_mRxBuffer (<[Z.to_nat (mRxLength u) := 0]> (mRxBuffer u1)) u1).
    assert (Ha1 : rx_array_ok u1) by (unfold rx_array_ok; congruence).
    assert (Hav : rx_array_ok v).
    { unfold rx_array_ok, v. cbn. rewrite length_insert. exact Ha1. }
    assert (Elv : rx_line v = rx_line u).
    { unfold rx_line, v. cbn. rewrite El, Eb. apply take_insert_ge. lia. }
    destruct (ProcessCommand_spec v Hav) as (aBuf & T1 & T2 & T3).
    + unfold v. cbn. lia.
    + now rewrite Elv.
    + unfold v. cbn. rewrite El.
      apply list_lookup_insert_eq. rewrite Ha1. lia.
    + rewrite Elv in T1, T2, T3. fold line in T1, T2, T3.
      fold len in T3. cbn zeta in T3.
      change (mInterpreter v) with (mInterpreter u1) in T3. rewrite Ei in T3.
      change (set_mRxBuffer aBuf v) with (set_mRxBuffer aBuf u1) in T3.
      exists aBuf. split; [exact T1|]. split; [exact T2|].
      intros r2 r3 trace.
      pose proof (run_Reply_no_ProcessLine
                    (ProcessLine (mInterpreter u) aBuf len)
                    (set_mRxLength len (set_mRxBuffer aBuf u1))) as F2.
      fold r2 in F2, T3.
      destruct (Output_rx sCommandPrompt (set_mRxLength 0 r2.1))
        as (_ & El3 & _).
      pose proof (Output_no_ProcessLine sCommandPrompt
                    (set_mRxLength 0 r2.1)) as F3.
      fold r3 in El3, F3. cbn [mRxLength set_mRxLength] in El3.
      split; [|split; [|exact El3]].
      * unfold bind at 1. unfold bind at 1.
        rewrite store_Rx_in by (assumption || lia). fold v. rewrite T3.
        rewrite bind_call_Output. fold r3. unfold ret. subst trace.
        cbn [app]. now rewrite app_nil_r.
      * subst trace. rewrite filter_app, F1. cbn [app].
        rewrite filter_cons_True by reflexivity.
        now rewrite filter_app, F2, F3.
  - intros Hr. pose proof (reachable_rx_ok u Hr) as Hok.
    split; [now destruct Hok|]. intros Hpos. now apply rx_ok_strip.
Qed.

(** C1 fails on the code. [ReceiveTask] stores every plain byte at
    [mRxBuffer[mRxLength++]] without comparing [mRxLength] with
    [kRxBufferSize]: after [kRxBufferSize] plain bytes the length equals
    the capacity (it is not in [0, capacity)), and the next plain byte is
    stored one past the end of the array. *)
Theorem ReceiveTask_overrun (c : Z) (aInstance : Interp) :
  plain c ->
  let aBuf := replicate (Z.to_nat kRxBufferSize) c in
  (exists u evs,
     ReceiveTask aBuf (Uart_new aInstance) = Ok tt u evs
     /\ mRxLength u = kRxBufferSize) /\
  ReceiveTask (aBuf ++ [c]) (Uart_new aInstance) = Stopped OutOfBounds.
Proof.
  intros Hc aBuf.
  assert (Ha : rx_array_ok (Uart_new aInstance)).
  { unfold rx_array_ok. cbn. now rewrite length_replicate. }
  destruct (ReceiveTask_plain c (Z.to_nat kRxBufferSize)
              (Uart_new aInstance) Hc Ha)
    as (u & evs & E & A & L); cbn [mRxLength Uart_new]; try lia.
  fold aBuf in E. cbn [mRxLength Uart_new] in L.
  split.
  - exists u, evs. split; [exact E | lia].
  - rewrite (ReceiveTask_app aBuf [c] _ u evs E).
    cbn [ReceiveTask]. unfold bind.
    rewrite ReceiveByte_plain_full; [reflexivity | assumption | lia].
Qed.

(** ** More on the line assembler *)

(** X8. In every reachable state the receive array has its size, the
    length of the line is between 0 and the capacity, and no byte of the
    line is a CR or a LF. *)
Theorem receive_line_invariant (u : Uart) :
  reachable u ->
  length (mRxBuffer u) = Z.to_nat kRxBufferSize /\
  0 <= mRxLength u <= kRxBufferSize /\
  Forall (fun c => c <> 13 /\ c <> 10) (rx_line u).
Proof. intros Hr. exact (reachable_rx_ok u Hr). Qed.

Lemma take_push (l : list Z) n c :
  (n < length l)%nat -> take (S n) (<[n:=c]> l) = take n l ++ [c].
Proof.
  intros Hn. rewrite (take_S_r _ _ c) by now apply list_lookup_insert_eq.
  now rewrite take_insert_ge by lia.
Qed.

Lemma ReceiveByte_plain_eval c u :
  plain c -> rx_array_ok u -> 0 <= mRxLength u < kRxBufferSize ->
  ReceiveByte c u =
  Ok tt (set_mRxLength (mRxLength u + 1)
           (set_mRxBuffer (<[Z.to_nat (mRxLength u) := c]> (mRxBuffer u))
              (Output [c] u).1.2))
     (Output [c] u).2.
Proof.
  intros Hc Ha Hn. rewrite ReceiveByte_plain by assumption.
  destruct (Output_rx [c] u) as (Eb & El & _).
  rewrite bind_call_Output, bind_gets, El.
  unfold bind. rewrite store_Rx_in by (unfold rx_array_ok; congruence || lia).
  unfold modify. rewrite wrap16_small by lia.
  now rewrite Eb, app_nil_r.
Qed.

Lemma ReceiveTask_plain_line bs : forall u,
  Forall plain bs -> rx_array_ok u -> 0 <= mRxLength u ->
  mRxLength u + Z.of_nat (length bs) <= kRxBufferSize ->
  exists u' evs,
    ReceiveTask bs u = Ok tt u' evs /\ rx_array_ok u' /\
    mRxLength u' = mRxLength u + Z.of_nat (length bs) /\
    rx_line u' = rx_line u ++ bs /\
    filter is_ProcessLine evs = [].
Proof.
  induction bs as [|c bs IH]; intros u Hp Ha H0 Hn; cbn [length] in *.
  - exists u, []. cbn. rewrite app_nil_r.
    repeat split; (assumption || lia || reflexivity).
  - apply Forall_cons in Hp as [Hc Hp].
    pose proof (ReceiveByte_plain_eval c u Hc Ha ltac:(lia)) as E1.
    destruct (Output_rx [c] u) as (Eb & El & _).
    pose proof (Output_no_ProcessLine [c] u) as F1.
    set (u1 := set_mRxLength _ _) in E1.
    assert (A1 : rx_array_ok u1).
    { unfold rx_array_ok, u1. cbn. now rewrite length_insert. }
    assert (L1 : mRxLength u1 = mRxLength u + 1) by reflexivity.
    assert (R1 : rx_line u1 = rx_line u ++ [c]).
    { unfold rx_line, u1. cbn.
      replace (Z.to_nat (mRxLength u + 1))
        with (S (Z.to_nat (mRxLength u))) by lia.
      apply take_push. rewrite Ha. lia. }
    destruct (IH u1 Hp A1 ltac:(lia) ltac:(lia))
      as (u2 & e2 & E2 & A2 & L2 & R2 & F2).
    exists u2, ((Output [c] u).2 ++ e2). cbn [ReceiveTask]. unfold bind.
    rewrite E1, E2. split; [reflexivity|]. split; [assumption|].
    split; [lia|]. split.
    + now rewrite R2, R1, <- app_assoc.
    + now rewrite filter_app, F1, F2.
Qed.

(** C8 fails on the code. The terminator case stores the NUL that ends
    the line at [mRxBuffer[mRxLength]] without comparing [mRxLength] with
    [kRxBufferSize], and the [default] case lets the line grow to the
    whole array. Plain bytes that fill the line to the capacity are all
    stored inside the array: the call returns, the line holds them, and
    [ProcessLine] has not been called. The CR or LF that ends this line
    then stores the NUL one past the end of the array, before
    [ProcessCommand] is reached: the line is not handed to the
    interpreter by any defined behaviour. *)
Theorem ReceiveTask_terminator_overrun (bs : list Z) (c : Z) (u : Uart) :
  Forall plain bs -> c = 13 \/ c = 10 ->
  rx_array_ok u -> 0 <= mRxLength u ->
  mRxLength u + Z.of_nat (length bs) = kRxBufferSize ->
  (exists u' evs,
     ReceiveTask bs u = Ok tt u' evs /\
     mRxLength u' = kRxBufferSize /\
     rx_line u' = rx_line u ++ bs /\
     filter is_ProcessLine evs = []) /\
  ReceiveTask (bs ++ [c]) u = Stopped OutOfBounds.
Proof.
  intros Hp Hc Ha H0 Hn.
  destruct (ReceiveTask_plain_line bs u Hp Ha H0 ltac:(lia))
    as (u' & evs & E & _ & L & R & F).
  split.
  - exists u', evs. split; [exact E|]. split; [lia|]. now split.
  - rewrite (ReceiveTask_app bs [c] u u' evs E).
    cbn [ReceiveTask]. unfold bind.
    rewrite ReceiveByte_eol_full; [reflexivity | assumption | lia].
Qed.

(** X10. Backspaces never take the length below 0: after [n] backspace
    or delete bytes the line is its first [N - n] bytes, and it is empty
    when [n] is [N] or more. [ProcessLine] is not called. *)
Theorem ReceiveTask_backspaces (bs : list Z) (u : Uart) :
  Forall erasing bs -> rx_array_ok u ->
  0 <= mRxLength u <= kRxBufferSize ->
  exists u' evs,
    ReceiveTask bs u = Ok tt u' evs /\
    mRxLength u' = Z.max 0 (mRxLength u - Z.of_nat (length bs)) /\
    rx_line u' = take (Z.to_nat (mRxLength u - Z.of_nat (length bs)))
                      (rx_line u) /\
    filter is_ProcessLine evs = [].
Proof.
  revert u. induction bs as [|c bs IH]; intros u Hp Ha Hn; cbn [length] in *.
  - exists u, []. cbn. split; [reflexivity|]. split; [lia|].
    split; [|reflexivity]. rewrite Z.sub_0_r.
    symmetry. apply take_ge. rewrite rx_line_length by assumption. lia.
  - apply Forall_cons in Hp as [Hc Hp].
    destruct (ReceiveByte_del_eval c u Hc) as [H0 H1].
    destruct (Z.eq_dec (mRxLength u) 0) as [E0|E0].
    + destruct (IH u Hp Ha Hn) as (u2 & e2 & E2 & L2 & R2 & F2).
      exists u2, e2. cbn [ReceiveTask]. unfold bind.
      rewrite (H0 E0), E2. cbn [app]. split; [reflexivity|].
      split; [lia|]. split; [|assumption].
      rewrite R2. unfold rx_line. rewrite E0.
      replace (Z.to_nat (0 - Z.of_nat (length bs))) with O by lia.
      replace (Z.to_nat (0 - Z.of_nat (S (length bs)))) with O by lia.
      reflexivity.
    + specialize (H1 ltac:(lia) Ha).
      destruct (Output_rx sEraseString u) as (Eb & El & _).
      pose proof (Output_no_ProcessLine sEraseString u) as F1.
      set (u1 := set_mRxBuffer _ _) in H1.
      assert (A1 : rx_array_ok u1).
      { unfold rx_array_ok, u1. cbn. now rewrite length_insert. }
      assert (L1 : mRxLength u1 = mRxLength u - 1) by reflexivity.
      assert (R1 : rx_line u1 = take (Z.to_nat (mRxLength u - 1)) (rx_line u)).
      { unfold rx_line, u1. cbn. rewrite take_insert_ge by lia.
        rewrite take_take. f_equal. lia. }
      destruct (IH u1 Hp A1 ltac:(lia)) as (u2 & e2 & E2 & L2 & R2 & F2).
      exists u2, ((Output sEraseString u).2 ++ e2).
      cbn [ReceiveTask]. unfold bind. rewrite H1, E2.
      split; [reflexivity|]. split; [lia|]. split.
      * rewrite R2, R1, L1, take_take. f_equal. lia.
      * now rewrite filter_app, F1, F2.
Qed.

Lemma ReceiveByte_eol_dispatch c v :
  c = 13 \/ c = 10 -> rx_array_ok v ->
  0 < mRxLength v < kRxBufferSize ->
  strip_last 10 (rx_line v) <> [] ->
  let line := strip_eol (rx_line v) in
  exists aBuf u' evs,
    ReceiveByte c v = Ok tt u' evs /\
    take (length line) aBuf = line /\ aBuf !! length line = Some 0 /\
    filter is_ProcessLine evs
    = [EvProcessLine aBuf (Z.of_nat (length line))] /\
    mRxLength u' = 0.
Proof.
  intros Hc Ha Hn Hne line.
  destruct (Output_rx CRNL v) as (Eb & El & Ei).
  pose proof (Output_no_ProcessLine CRNL v) as F1.
  set (v1 := (Output CRNL v).1.2) in *.
  set (w := set_mRxBuffer (<[Z.to_nat (mRxLength v) := 0]> (mRxBuffer v1)) v1).
  assert (Ha1 : rx_array_ok v1) by (unfold rx_array_ok; congruence).
  assert (Haw : rx_array_ok w).
  { unfold rx_array_ok, w. cbn. rewrite length_insert. exact Ha1. }
  assert (Elw : rx_line w = rx_line v).
  { unfold rx_line, w. cbn. rewrite El, Eb. apply take_insert_ge. lia. }
  destruct (ProcessCommand_spec w Haw) as (aBuf & T1 & T2 & T3).
  { unfold w. cbn. lia. }
  { now rewrite Elw. }
  { unfold w. cbn. rewrite El. apply list_lookup_insert_eq.
    rewrite Ha1. lia. }
  rewrite Elw in T1, T2, T3. fold line in T1, T2, T3. cbn zeta in T3.
  set (r2 := run_Reply _ _) in T3.
  pose proof (run_Reply_no_ProcessLine
                (ProcessLine (mInterpreter w) aBuf (Z.of_nat (length line)))
                (set_mRxLength (Z.of_nat (length line))
                   (set_mRxBuffer aBuf w))) as F2.
  fold r2 in F2.
  set (r3 := Output sCommandPrompt (set_mRxLength 0 r2.1)).
  destruct (Output_rx sCommandPrompt (set_mRxLength 0 r2.1)) as (_ & El3 & _).
  pose proof (Output_no_ProcessLine sCommandPrompt (set_mRxLength 0 r2.1))
    as F3.
  fold r3 in El3, F3. cbn [mRxLength set_mRxLength] in El3.
  exists aBuf, r3.1.2,
    ((Output CRNL v).2
     ++ EvProcessLine aBuf (Z.of_nat (length line)) :: r2.2 ++ r3.2).
  split; [|split; [exact T1|split; [exact T2|split; [|exact El3]]]].
  - rewrite ReceiveByte_eol by assumption.
    rewrite bind_call_Output, bind_gets. fold v1. rewrite El.
    destruct (mRxLength v >? 0) eqn:E0;
      [|rewrite Z.gtb_ltb in E0; apply Z.ltb_ge in E0; lia].
    unfold bind at 1. unfold bind at 1.
    rewrite store_Rx_in by (assumption || lia). fold w. rewrite T3.
    rewrite bind_call_Output. fold r3. unfold ret.
    cbn [app]. now rewrite app_nil_r.
  - rewrite filter_app, F1. cbn [app].
    rewrite filter_cons_True by reflexivity.
    now rewrite filter_app, F2, F3.
Qed.

(** X11. A line typed on an empty buffer and ended by a CR or a LF
    reaches the interpreter as it was typed: for plain bytes [bs], fewer
    than the capacity, [ReceiveTask] calls [ProcessLine] exactly once,
    with a buffer that holds [bs] followed by a NUL and with the length
    of [bs], and leaves the receive length at 0. *)
Theorem ReceiveTask_line (bs : list Z) (c : Z) (u : Uart) :
  Forall plain bs -> bs <> [] ->
  Z.of_nat (length bs) < kRxBufferSize ->
  c = 13 \/ c = 10 ->
  rx_array_ok u -> mRxLength u = 0 ->
  exists u' evs aBuf,
    ReceiveTask (bs ++ [c]) u = Ok tt u' evs /\
    filter is_ProcessLine evs
    = [EvProcessLine aBuf (Z.of_nat (length bs))] /\
    take (length bs) aBuf = bs /\ aBuf !! length bs = Some 0 /\
    mRxLength u' = 0.
Proof.
  intros Hp Hne Hlen Hc Ha H0.
  destruct (ReceiveTask_plain_line bs u Hp Ha ltac:(lia) ltac:(lia))
    as (u1 & e1 & E1 & A1 & L1 & R1 & F1).
  assert (R1' : rx_line u1 = bs).
  { rewrite R1. unfold rx_line. now rewrite H0. }
  assert (Hpos : 0 < mRxLength u1).
  { rewrite L1, H0. destruct bs; [contradiction | cbn; lia]. }
  assert (Hok : rx_ok u1).
  { split; [assumption|]. split; [lia|]. rewrite R1'.
    eapply Forall_impl; [exact Hp|].
    intros x (? & ? & _). now split. }
  destruct (rx_ok_strip u1 Hok Hpos) as [Hs1 Hs2].
  destruct (ReceiveByte_eol_dispatch c u1 Hc A1 ltac:(lia) Hs1)
    as (aBuf & u2 & e2 & E2 & T1 & T2 & F2 & L2).
  rewrite Hs2, R1' in T1, T2, F2.
  exists u2, (e1 ++ e2), aBuf.
  split; [|split; [|split; [exact T1|split; [exact T2|exact L2]]]].
  - rewrite (ReceiveTask_app bs [c] u u1 e1 E1).
    cbn [ReceiveTask]. unfold bind at 1. rewrite E2. unfold ret.
    now rewrite app_nil_r.
  - now rewrite filter_app, F1, F2.
Qed.

(** X12. On a build with [OPENTHREAD_EXAMPLES_POSIX], Ctrl-C (0x03)
    leaves the process once the bytes before it are processed: when these
    bytes take the object to [u1] with the calls [e1], [exit] is called
    on the object [u1] after exactly the calls [e1], whatever bytes
    follow the 0x03 in the span - they are not looked at. On a build
    without, 0x03 is the next byte of the line, like a letter. *)
Theorem ReceiveTask_ctrl_c (a b : list Z) (u u1 : Uart) (e1 : list Event) :
  ReceiveTask a u = Ok tt u1 e1 ->
  (OPENTHREAD_EXAMPLES_POSIX = true ->
   ReceiveTask (a ++ 3 :: b) u = Stopped (ProcessExit u1 e1)) /\
  (OPENTHREAD_EXAMPLES_POSIX = false ->
   rx_array_ok u1 -> 0 <= mRxLength u1 < kRxBufferSize ->
   exists u2 e2,
     ReceiveTask (a ++ [3]) u = Ok tt u2 (e1 ++ e2) /\
     rx_line u2 = rx_line u1 ++ [3]).
Proof.
  intros E. split.
  - intros Hp. rewrite (ReceiveTask_app a (3 :: b) u u1 e1 E).
    cbn [ReceiveTask]. unfold bind. rewrite ReceiveByte_exit by assumption.
    cbn. now rewrite app_nil_r.
  - intros Hp Ha Hn.
    assert (H3 : plain 3).
    { unfold plain. rewrite Hp. repeat split; (lia || discriminate). }
    destruct (ReceiveTask_plain_line [3] u1 ltac:(now constructor) Ha
                ltac:(lia) ltac:(cbn; lia))
      as (u2 & e2 & E2 & _ & _ & R2 & _).
    exists u2, e2. rewrite (ReceiveTask_app a [3] u u1 e1 E), E2.
    now split.
Qed.

End RxRange.

(** ** The transmit ring *)

Section TxRange.

(** [mTxLength] is a [uint16_t] that has to count up to the capacity. *)
Hypothesis kTx_range : 0 < kTxBufferSize <= 65535.

Lemma Send_idle_queued u :
  mSendLength u = 0 -> head_ok u -> 0 < mTxLength u ->
  let n := Z.min (mTxLength u) (kTxBufferSize - mTxHead u) in
  0 < n /\
  Send u = (set_mSendLength n u,
            [EvUartSend (take (Z.to_nat n)
                           (drop (Z.to_nat (mTxHead u)) (mTxBuffer u))) n]).
Proof.
  intros Hs [Hh0 Hh1] Hl n. subst n. unfold Send. rewrite Hs. cbn [Z.eqb negb].
  destruct (mTxLength u >? kTxBufferSize - mTxHead u) eqn:E.
  - apply Z.gtb_lt in E.
    rewrite Z.min_r by lia. rewrite wrap16_small by lia.
    cbn [mSendLength set_mSendLength].
    destruct (kTxBufferSize - mTxHead u >? 0) eqn:E2;
      [| rewrite Z.gtb_ltb in E2; apply Z.ltb_ge in E2; lia].
    split; [lia | reflexivity].
  - rewrite Z.gtb_ltb in E. apply Z.ltb_ge in E.
    rewrite Z.min_l by lia.
    cbn [mSendLength set_mSendLength].
    destruct (mTxLength u >? 0) eqn:E2;
      [| rewrite Z.gtb_ltb in E2; apply Z.ltb_ge in E2; lia].
    split; [lia | reflexivity].
Qed.

Lemma Send_idle_empty u :
  mSendLength u = 0 -> head_ok u -> mTxLength u = 0 -> Send u = (u, []).
Proof.
  intros Hs [Hh0 Hh1] Hl. unfold Send, set_mSendLength.
  destruct u as [rb rl tb h l sl i]; cbn in *. subst sl l. cbn.
  destruct (0 >? kTxBufferSize - h) eqn:E;
    [apply Z.gtb_lt in E; lia | reflexivity].
Qed.

Lemma mod_shift_ne a d :
  0 < d < kTxBufferSize ->
  (a + d) mod kTxBufferSize <> a mod kTxBufferSize.
Proof.
  intros Hd E.
  assert (H : (a + d - a) mod kTxBufferSize = 0).
  { rewrite Zminus_mod, E, Z.sub_diag. apply Z.mod_0_l. lia. }
  replace (a + d - a) with d in H by lia.
  rewrite Z.mod_small in H by lia. lia.
Qed.

Lemma slot_ne a d :
  0 < d < kTxBufferSize ->
  Z.to_nat ((a + d) mod kTxBufferSize) <> Z.to_nat (a mod kTxBufferSize).
Proof.
  intros Hd E. apply (mod_shift_ne a d Hd).
  pose proof (Z.mod_pos_bound (a + d) kTxBufferSize).
  pose proof (Z.mod_pos_bound a kTxBufferSize). lia.
Qed.

Lemma Output_loop_cons c bs u :
  0 <= mTxLength u < kTxBufferSize ->
  Output_loop (c :: bs) u = Output_loop bs (pushed c u).
Proof.
  intros Hl. cbn [Output_loop]. unfold pushed.
  pose proof (Z.mod_pos_bound (mTxHead u + mTxLength u) kTxBufferSize).
  now rewrite !wrap16_small by lia.
Qed.

Lemma Output_loop_length bs : forall u,
  0 <= mTxLength u ->
  mTxLength u + Z.of_nat (length bs) <= kTxBufferSize ->
  mTxLength (Output_loop bs u) = mTxLength u + Z.of_nat (length bs).
Proof.
  induction bs as [|c bs IH]; intros u H0 H1; cbn [length] in *.
  - cbn. lia.
  - rewrite Output_loop_cons by lia. rewrite IH; cbn; lia.
Qed.

Lemma Output_loop_other bs : forall u j,
  0 <= mTxLength u ->
  mTxLength u + Z.of_nat (length bs) <= kTxBufferSize ->
  (forall i, (i < length bs)%nat ->
     j <> Z.to_nat ((mTxHead u + mTxLength u + Z.of_nat i)
                      mod kTxBufferSize)) ->
  mTxBuffer (Output_loop bs u) !! j = mTxBuffer u !! j.
Proof.
  induction bs as [|c bs IH]; intros u j H0 H1 Hj; cbn [length] in *.
  - reflexivity.
  - rewrite Output_loop_cons by lia. rewrite IH; cbn; try lia.
    + apply list_lookup_insert_ne. intros E.
      apply (Hj O); [lia|]. now rewrite Z.add_0_r.
    + intros i Hi E. apply (Hj (S i)); [lia|].
      rewrite E. f_equal. f_equal. lia.
Qed.

Lemma Output_loop_lookup bs : forall u i,
  tx_array_ok u -> 0 <= mTxLength u ->
  mTxLength u + Z.of_nat (length bs) <= kTxBufferSize ->
  (i < length bs)%nat ->
  mTxBuffer (Output_loop bs u)
    !! Z.to_nat ((mTxHead u + mTxLength u + Z.of_nat i) mod kTxBufferSize)
  = bs !! i.
Proof.
  induction bs as [|c bs IH]; intros u i Ha H0 H1 Hi; cbn [length] in *;
    [lia|].
  rewrite Output_loop_cons by lia.
  destruct i as [|i].
  - rewrite Z.add_0_r. rewrite Output_loop_other; cbn; try lia.
    + apply list_lookup_insert_eq. rewrite Ha.
      pose proof (Z.mod_pos_bound (mTxHead u + mTxLength u) kTxBufferSize).
      lia.
    + intros i Hi' E. symmetry in E. revert E.
      replace (mTxHead u + (mTxLength u + 1) + Z.of_nat i)
        with (mTxHead u + mTxLength u + (1 + Z.of_nat i)) by lia.
      apply slot_ne. lia.
  - specialize (IH (pushed c u) i). cbn in IH.
    replace (mTxHead u + mTxLength u + Z.of_nat (S i))
      with (mTxHead u + (mTxLength u + 1) + Z.of_nat i) by lia.
    apply IH; try lia.
    unfold tx_array_ok. cbn. now rewrite length_insert.
Qed.

Lemma Output_unfold_gen aBuf u :
  0 <= mTxLength u <= kTxBufferSize ->
  let n := Z.min (wrap16 (Z.of_nat (length aBuf)))
                 (kTxBufferSize - mTxLength u) in
  Output aBuf u =
    (n, (Send (Output_loop (take (Z.to_nat n) aBuf) u)).1,
        (Send (Output_loop (take (Z.to_nat n) aBuf) u)).2).
Proof.
  intros Hl n. unfold Output.
  rewrite (wrap16_small (kTxBufferSize - mTxLength u)) by lia.
  assert (E : (if wrap16 (Z.of_nat (length aBuf))
                    >? kTxBufferSize - mTxLength u
               then kTxBufferSize - mTxLength u
               else wrap16 (Z.of_nat (length aBuf))) = n).
  { subst n. destruct (_ >? _) eqn:E.
    - apply Z.gtb_lt in E. lia.
    - rewrite Z.gtb_ltb in E. apply Z.ltb_ge in E. lia. }
  rewrite E. now destruct (Send _).
Qed.

Lemma Output_unfold aBuf u :
  0 <= mTxLength u <= kTxBufferSize ->
  Z.of_nat (length aBuf) <= 65535 ->
  let n := Z.min (Z.of_nat (length aBuf)) (kTxBufferSize - mTxLength u) in
  Output aBuf u =
    (n, (Send (Output_loop (take (Z.to_nat n) aBuf) u)).1,
        (Send (Output_loop (take (Z.to_nat n) aBuf) u)).2).
Proof.
  intros Hl Hb. rewrite (Output_unfold_gen aBuf u Hl).
  now rewrite wrap16_small by lia.
Qed.

(** C5. For every span (of a length that fits [uint16_t]) and every ring
    with queued length at most the capacity, [Output] accepts
    [min (length, capacity - queued)] bytes: it returns that count, adds
    it to [mTxLength], leaves [mTxHead] alone, stores byte [i] of the span
    at offset [(mTxHead + mTxLength + i) mod capacity] and changes no other
    slot; on a full ring it returns 0. *)
Theorem Output_accepts (aBuf : list Z) (u : Uart) :
  tx_array_ok u ->
  0 <= mTxLength u <= kTxBufferSize ->
  Z.of_nat (length aBuf) <= 65535 ->
  let n := Z.min (Z.of_nat (length aBuf)) (kTxBufferSize - mTxLength u) in
  let u' := (Output aBuf u).1.2 in
  (Output aBuf u).1.1 = n /\
  mTxLength u' = mTxLength u + n /\
  mTxHead u' = mTxHead u /\
  (forall i, 0 <= i < n ->
     mTxBuffer u' !! Z.to_nat ((mTxHead u + mTxLength u + i) mod kTxBufferSize)
     = aBuf !! Z.to_nat i) /\
  (forall j : nat,
     (forall i, 0 <= i < n ->
        j <> Z.to_nat ((mTxHead u + mTxLength u + i) mod kTxBufferSize)) ->
     mTxBuffer u' !! j = mTxBuffer u !! j) /\
  (mTxLength u = kTxBufferSize -> (Output aBuf u).1.1 = 0).
Proof.
  intros Ha Hl Hb n u'. subst u'.
  rewrite (Output_unfold aBuf u Hl Hb). fold n. cbn [fst snd].
  set (bs := take (Z.to_nat n) aBuf).
  assert (Hbs : Z.of_nat (length bs) = n).
  { subst bs. rewrite length_take. lia. }
  destruct (Send_frame (Output_loop bs u)) as (-> & -> & -> & _).
  destruct (Output_loop_frame bs u) as (-> & _).
  rewrite Output_loop_length by lia. rewrite Hbs.
  repeat split; try lia.
  - intros i Hi.
    replace i with (Z.of_nat (Z.to_nat i)) at 1 by lia.
    rewrite Output_loop_lookup by (try assumption; lia).
    subst bs. apply lookup_take_lt. lia.
  - intros j Hj. apply Output_loop_other; try lia.
    intros i Hi. apply Hj. lia.
Qed.

Lemma Send_counters u :
  head_ok u -> ring_inv u ->
  head_ok (Send u).1 /\ ring_inv (Send u).1 /\ idle_empty (Send u).1.
Proof.
  intros Hh (Hs0 & Hsl & Hlk).
  destruct (Z.eq_dec (mSendLength u) 0) as [Hs|Hs].
  - destruct (Z.eq_dec (mTxLength u) 0) as [Hl|Hl].
    + rewrite Send_idle_empty by assumption. cbn.
      unfold head_ok, ring_inv, idle_empty in *. lia.
    + destruct (Send_idle_queued u Hs Hh) as [Hn ->]; [lia|].
      unfold head_ok, ring_inv, idle_empty in *. cbn. lia.
  - rewrite Send_busy by assumption. cbn.
    unfold head_ok, ring_inv, idle_empty in *. lia.
Qed.

Lemma Output_counters aBuf u :
  head_ok u -> ring_inv u ->
  head_ok (Output aBuf u).1.2 /\ ring_inv (Output aBuf u).1.2
  /\ idle_empty (Output aBuf u).1.2.
Proof.
  intros Hh (Hs0 & Hsl & Hlk).
  rewrite Output_unfold_gen by lia. cbn [fst snd].
  set (n := Z.min _ _).
  set (bs := take (Z.to_nat n) aBuf).
  assert (Hbs : Z.of_nat (length bs) <= kTxBufferSize - mTxLength u).
  { subst bs. rewrite length_take. lia. }
  destruct (Output_loop_frame bs u) as (Eh & Es & _).
  pose proof (Output_loop_length bs u ltac:(lia) ltac:(lia)) as El.
  apply Send_counters.
  - unfold head_ok. now rewrite Eh.
  - unfold ring_inv. rewrite Es, El. lia.
Qed.

Lemma SendDoneTask_counters u :
  ring_inv u ->
  head_ok (SendDoneTask u).1 /\ ring_inv (SendDoneTask u).1
  /\ idle_empty (SendDoneTask u).1.
Proof.
  intros (Hs0 & Hsl & Hlk). unfold SendDoneTask.
  pose proof (Z.mod_pos_bound (mTxHead u + mSendLength u) kTxBufferSize).
  apply Send_counters.
  - unfold head_ok. cbn. rewrite wrap16_small; lia.
  - unfold ring_inv. cbn. rewrite wrap16_small; lia.
Qed.

Lemma Send_tx_ok u : tx_ok u -> tx_ok (Send u).1.
Proof.
  intros (Ha & Hh & Hr & _). split; [|now apply Send_counters].
  unfold tx_array_ok. now destruct (Send_frame u) as (-> & _).
Qed.

Lemma Output_tx_ok aBuf u : tx_ok u -> tx_ok (Output aBuf u).1.2.
Proof.
  intros (Ha & Hh & Hr & _). split; [|now apply Output_counters].
  unfold tx_array_ok. now rewrite Output_array.
Qed.

Lemma SendDoneTask_tx_ok u : tx_ok u -> tx_ok (SendDoneTask u).1.
Proof.
  intros (Ha & Hh & Hr & _). split; [|now apply SendDoneTask_counters].
  unfold tx_array_ok, SendDoneTask.
  now destruct (Send_frame (set_mSendLength 0
      (set_mTxLength
         (wrap16 (mTxLength
            (set_mTxHead (wrap16 ((mTxHead u + mSendLength u)
                                    mod kTxBufferSize)) u)
          - mSendLength
              (set_mTxHead (wrap16 ((mTxHead u + mSendLength u)
                                      mod kTxBufferSize)) u)))
         (set_mTxHead (wrap16 ((mTxHead u + mSendLength u)
                                 mod kTxBufferSize)) u)))) as (-> & _).
Qed.

Lemma Uart_new_tx_ok i : tx_ok (Uart_new i).
Proof.
  unfold tx_ok, tx_array_ok, head_ok, ring_inv, idle_empty. cbn.
  rewrite length_replicate. lia.
Qed.

Lemma ReceiveTask_tx_ok aBuf : preserves tx_ok (ReceiveTask aBuf).
Proof.
  apply preserves_ReceiveTask; try (intros; assumption).
  intros u b H. now apply Output_tx_ok.
Qed.

Lemma reachable_tx_ok u : reachable u -> tx_ok u.
Proof.
  induction 1 as [i|u aBuf _ IH|u _ IH|u _ IH|u aBuf u' evs _ IH E].
  - apply Uart_new_tx_ok.
  - now apply Output_tx_ok.
  - now apply Send_tx_ok.
  - now apply SendDoneTask_tx_ok.
  - eapply ReceiveTask_tx_ok; eauto.
Qed.

(** C3. in-flight length <= queued length <= capacity
    ([mSendLength <= mTxLength <= kTxBufferSize]) holds after
    construction; [Output], [Send] and [SendDoneTask] each keep it, on
    every object whose head is an offset into the ring (which they keep
    as well); hence it holds in every reachable state. *)
Theorem ring_inv_invariant :
  (forall aInstance, head_ok (Uart_new aInstance)
                     /\ ring_inv (Uart_new aInstance)) /\
  (forall u, head_ok u -> ring_inv u ->
     (forall aBuf, head_ok (Output aBuf u).1.2
                   /\ ring_inv (Output aBuf u).1.2) /\
     (head_ok (Send u).1 /\ ring_inv (Send u).1) /\
     (head_ok (SendDoneTask u).1 /\ ring_inv (SendDoneTask u).1)) /\
  (forall u, reachable u ->
     mSendLength u <= mTxLength u /\ mTxLength u <= kTxBufferSize).
Proof.
  split; [|split].
  - intros i. now destruct (Uart_new_tx_ok i) as (_ & ? & ? & _).
  - intros u Hh Hr. split; [intros aBuf|split].
    + now destruct (Output_counters aBuf u Hh Hr) as (? & ? & _).
    + now destruct (Send_counters u Hh Hr) as (? & ? & _).
    + now destruct (SendDoneTask_counters u Hr) as (? & ? & _).
  - intros u Hu. destruct (reachable_tx_ok u Hu) as (_ & _ & Hr & _).
    unfold ring_inv in Hr. lia.
Qed.

(** C10. Once a call of [Output], [Send] or [SendDoneTask] has returned
    (on an object that satisfies the invariants of C3), and after
    construction, an in-flight length of 0 implies a queued length of 0;
    so this holds in every reachable state. *)
Theorem idle_only_when_empty :
  (forall aInstance, idle_empty (Uart_new aInstance)) /\
  (forall u, head_ok u -> ring_inv u ->
     (forall aBuf, idle_empty (Output aBuf u).1.2) /\
     idle_empty (Send u).1 /\
     idle_empty (SendDoneTask u).1) /\
  (forall u, reachable u -> mSendLength u = 0 -> mTxLength u = 0).
Proof.
  split; [|split].
  - intros i. now destruct (Uart_new_tx_ok i) as (_ & _ & _ & ?).
  - intros u Hh Hr. split; [intros aBuf|split].
    + now destruct (Output_counters aBuf u Hh Hr) as (_ & _ & ?).
    + now destruct (Send_counters u Hh Hr) as (_ & _ & ?).
    + now destruct (SendDoneTask_counters u Hr) as (_ & _ & ?).
  - intros u Hu. now destruct (reachable_tx_ok u Hu) as (_ & _ & _ & ?).
Qed.

(** C4. The send-pump does nothing while a send is in flight. With none
    in flight and bytes queued, it sets the in-flight length to
    [min (queued, capacity - head)], which is positive, and calls
    [otPlatUartSend] once, with the span of that length that starts at
    [mTxBuffer + mTxHead]. With nothing queued it does nothing. No call
    of [otPlatUartSend] it makes has length 0. *)
Theorem Send_pump (u : Uart) :
  head_ok u -> 0 <= mTxLength u ->
  (mSendLength u <> 0 -> Send u = (u, [])) /\
  (mSendLength u = 0 -> 0 < mTxLength u ->
     let n := Z.min (mTxLength u) (kTxBufferSize - mTxHead u) in
     0 < n /\
     Send u = (set_mSendLength n u,
               [EvUartSend (take (Z.to_nat n)
                              (drop (Z.to_nat (mTxHead u)) (mTxBuffer u)))
                           n])) /\
  (mSendLength u = 0 -> mTxLength u = 0 -> Send u = (u, [])) /\
  (forall aBuf n, EvUartSend aBuf n ∈ (Send u).2 -> 0 < n).
Proof.
  intros Hh Hl. split; [|split; [|split]].
  - apply Send_busy.
  - intros Hs Hq. exact (Send_idle_queued u Hs Hh Hq).
  - intros Hs Hl0. now apply Send_idle_empty.
  - apply Send_events_positive.
Qed.

(** C7. In a reachable state with no send outstanding, [SendDoneTask]
    changes nothing (head, queued length, in-flight length, both buffers)
    and calls nothing. *)
Theorem SendDoneTask_spurious (u : Uart) :
  reachable u -> mSendLength u = 0 -> SendDoneTask u = (u, []).
Proof.
  intros Hu Hs. destruct (reachable_tx_ok u Hu) as (_ & Hh & Hr & Hi).
  specialize (Hi Hs). unfold SendDoneTask.
  unfold head_ok in Hh.
  assert (E : set_mSendLength 0
      (set_mTxLength
         (wrap16 (mTxLength
            (set_mTxHead (wrap16 ((mTxHead u + mSendLength u)
                                    mod kTxBufferSize)) u)
          - mSendLength
              (set_mTxHead (wrap16 ((mTxHead u + mSendLength u)
                                      mod kTxBufferSize)) u)))
         (set_mTxHead (wrap16 ((mTxHead u + mSendLength u)
                                 mod kTxBufferSize)) u)) = u).
  { cbn. rewrite Hs, Hi, Z.add_0_r. rewrite Z.mod_small by lia.
    rewrite !wrap16_small by lia. clear Hu Hr.
    destruct u as [rb rl tb h l sl i]; cbn in *. now subst. }
  rewrite E. now apply Send_idle_empty.
Qed.

Lemma ring_read_cong buf n : forall h1 h2,
  h1 mod kTxBufferSize = h2 mod kTxBufferSize ->
  ring_read buf h1 n = ring_read buf h2 n.
Proof.
  induction n as [|n IH]; intros h1 h2 E; cbn; [reflexivity|].
  rewrite E. f_equal. apply IH.
  now rewrite (Zplus_mod h1), E, <- Zplus_mod.
Qed.

Lemma ring_read_app buf a b : forall h,
  ring_read buf h (a + b) =
  ring_read buf h a ++ ring_read buf (h + Z.of_nat a) b.
Proof.
  induction a as [|a IH]; intros h.
  - cbn. now rewrite Z.add_0_r.
  - cbn [Nat.add ring_read app]. rewrite IH. do 3 f_equal. lia.
Qed.

Lemma ring_read_insert_out buf n : forall h t c,
  (forall i, (i < n)%nat ->
     Z.to_nat ((h + Z.of_nat i) mod kTxBufferSize) <> t) ->
  ring_read (<[t:=c]> buf) h n = ring_read buf h n.
Proof.
  induction n as [|n IH]; intros h t c Hi; cbn; [reflexivity|].
  rewrite list_lookup_total_insert_ne.
  - f_equal. apply IH. intros i Hlt.
    replace (h + 1 + Z.of_nat i) with (h + Z.of_nat (S i)) by lia.
    apply Hi. lia.
  - intros E. apply (Hi O); [lia|]. now rewrite Z.add_0_r.
Qed.

Lemma ring_read_contiguous buf n : forall h,
  0 <= h -> h + Z.of_nat n <= kTxBufferSize ->
  length buf = Z.to_nat kTxBufferSize ->
  ring_read buf h n = take n (drop (Z.to_nat h) buf).
Proof.
  induction n as [|n IH]; intros h H0 H1 Hb; cbn [ring_read].
  - now rewrite take_0.
  - rewrite Z.mod_small by lia.
    destruct (lookup_lt_is_Some_2 buf (Z.to_nat h)) as [x Hx]; [lia|].
    rewrite (drop_S _ _ _ Hx). cbn [take].
    rewrite (list_lookup_total_correct _ _ _ Hx). f_equal.
    rewrite IH by lia. do 2 f_equal. lia.
Qed.

Lemma pending_pushed c u :
  tx_array_ok u -> 0 <= mTxLength u < kTxBufferSize ->
  pending (pushed c u) = pending u ++ [c].
Proof.
  intros Ha Hl. unfold pending, pushed. cbn.
  replace (Z.to_nat (mTxLength u + 1))
    with (Z.to_nat (mTxLength u) + 1)%nat by lia.
  rewrite ring_read_app. f_equal.
  - apply ring_read_insert_out. intros i Hi E.
    symmetry in E. revert E.
    replace (mTxHead u + mTxLength u)
      with (mTxHead u + Z.of_nat i + (mTxLength u - Z.of_nat i)) by lia.
    apply slot_ne. lia.
  - cbn. rewrite Z2Nat.id by lia.
    rewrite list_lookup_total_insert_eq; [reflexivity|].
    rewrite Ha.
    pose proof (Z.mod_pos_bound (mTxHead u + mTxLength u) kTxBufferSize).
    lia.
Qed.

Lemma pending_Output_loop bs : forall u,
  tx_array_ok u -> 0 <= mTxLength u ->
  mTxLength u + Z.of_nat (length bs) <= kTxBufferSize ->
  pending (Output_loop bs u) = pending u ++ bs.
Proof.
  induction bs as [|c bs IH]; intros u Ha H0 H1; cbn [length] in *.
  - cbn. now rewrite app_nil_r.
  - rewrite Output_loop_cons by lia. rewrite IH.
    + rewrite pending_pushed by (assumption || lia).
      now rewrite <- app_assoc.
    + unfold tx_array_ok. cbn. now rewrite length_insert.
    + cbn. lia.
    + cbn. lia.
Qed.

Lemma take_pending u n :
  tx_array_ok u -> head_ok u -> 0 <= n <= mTxLength u ->
  n <= kTxBufferSize - mTxHead u ->
  take (Z.to_nat n) (drop (Z.to_nat (mTxHead u)) (mTxBuffer u))
  = take (Z.to_nat n) (pending u).
Proof.
  intros Ha Hh Hn Hc. unfold head_ok in Hh. unfold pending.
  replace (Z.to_nat (mTxLength u))
    with (Z.to_nat n + (Z.to_nat (mTxLength u) - Z.to_nat n))%nat by lia.
  rewrite ring_read_app.
  rewrite take_app_length' by now rewrite ring_read_length.
  symmetry. apply ring_read_contiguous; (assumption || lia).
Qed.

Lemma SendDoneTask_unfold u :
  ring_inv u -> SendDoneTask u = Send (advanced u).
Proof.
  intros (Hs0 & Hsl & Hlk). unfold SendDoneTask, advanced. cbn.
  pose proof (Z.mod_pos_bound (mTxHead u + mSendLength u) kTxBufferSize).
  now rewrite !wrap16_small by lia.
Qed.

Lemma advanced_ok u :
  tx_array_ok u -> ring_inv u ->
  tx_array_ok (advanced u) /\ head_ok (advanced u) /\ ring_inv (advanced u).
Proof.
  intros Ha (Hs0 & Hsl & Hlk).
  pose proof (Z.mod_pos_bound (mTxHead u + mSendLength u) kTxBufferSize).
  unfold tx_array_ok, head_ok, ring_inv in *. cbn. lia.
Qed.

Lemma pending_split u :
  ring_inv u ->
  pending u = take (Z.to_nat (mSendLength u)) (pending u)
              ++ pending (advanced u).
Proof.
  intros (Hs0 & Hsl & Hlk). unfold pending at 1 2. cbn.
  replace (Z.to_nat (mTxLength u))
    with (Z.to_nat (mSendLength u)
          + Z.to_nat (mTxLength u - mSendLength u))%nat by lia.
  rewrite ring_read_app.
  rewrite take_app_length' by now rewrite ring_read_length.
  f_equal. unfold pending. cbn. apply ring_read_cong.
  rewrite Z.mod_mod by lia. f_equal. lia.
Qed.

Lemma Send_sync u sent wr :
  tx_array_ok u -> head_ok u -> ring_inv u -> in_sync u sent wr ->
  in_sync (Send u).1 (sent ++ sent_bytes (Send u).2) wr.
Proof.
  intros Ha Hh (Hs0 & Hsl & Hlk) Hy.
  destruct (Z.eq_dec (mSendLength u) 0) as [Hs|Hs].
  - destruct (Z.eq_dec (mTxLength u) 0) as [Hl|Hl].
    + rewrite Send_idle_empty by assumption. cbn. now rewrite app_nil_r.
    + destruct (Send_idle_queued u Hs Hh) as [Hn ->]; [lia|].
      destruct Hy as (done & -> & ->). exists done. cbn.
      rewrite Hs, take_0, !app_nil_r. split; [|reflexivity].
      f_equal. change (pending (set_mSendLength _ u)) with (pending u).
      apply take_pending; (assumption || lia).
  - rewrite Send_busy by assumption. cbn. now rewrite app_nil_r.
Qed.

Lemma Output_loop_sync bs u sent wr :
  tx_array_ok u -> ring_inv u ->
  mTxLength u + Z.of_nat (length bs) <= kTxBufferSize ->
  in_sync u sent wr -> in_sync (Output_loop bs u) sent (wr ++ bs).
Proof.
  intros Ha (Hs0 & Hsl & Hlk) Hb (done & -> & ->). exists done.
  rewrite pending_Output_loop by (assumption || lia).
  destruct (Output_loop_frame bs u) as (_ & -> & _).
  rewrite take_app_le by (rewrite pending_length; lia).
  now rewrite app_assoc.
Qed.

Lemma Output_sync aBuf u sent wr :
  tx_array_ok u -> head_ok u -> ring_inv u -> in_sync u sent wr ->
  mTxLength u + Z.of_nat (length aBuf) <= kTxBufferSize ->
  (Output aBuf u).1.1 = Z.of_nat (length aBuf) /\
  in_sync (Output aBuf u).1.2 (sent ++ sent_bytes (Output aBuf u).2)
          (wr ++ aBuf).
Proof.
  intros Ha Hh Hr Hy Hb. pose proof Hr as (Hs0 & Hsl & Hlk).
  rewrite Output_unfold by lia. cbn [fst snd].
  rewrite Z.min_l by lia. rewrite Nat2Z.id, firstn_all.
  split; [reflexivity|].
  destruct (Output_loop_frame aBuf u) as (Eh & Es & _ & _ & _ & Eb).
  apply Send_sync.
  - unfold tx_array_ok. now rewrite Eb.
  - unfold head_ok. now rewrite Eh.
  - unfold ring_inv. rewrite Es, Output_loop_length by lia. lia.
  - now apply Output_loop_sync.
Qed.

Lemma SendDoneTask_sync u sent wr :
  tx_array_ok u -> ring_inv u -> in_sync u sent wr ->
  in_sync (SendDoneTask u).1 (sent ++ sent_bytes (SendDoneTask u).2) wr.
Proof.
  intros Ha Hr (done & -> & ->).
  rewrite SendDoneTask_unfold by assumption.
  destruct (advanced_ok u Ha Hr) as (Ha' & Hh' & Hr').
  apply Send_sync; try assumption.
  exists (done ++ take (Z.to_nat (mSendLength u)) (pending u)).
  cbn [mSendLength advanced set_mSendLength]. rewrite take_0, app_nil_r.
  split; [reflexivity|].
  now rewrite <- app_assoc, <- pending_split.
Qed.

Lemma step_tx_sync op u sent wr :
  tx_ok u -> in_sync u sent wr ->
  Z.of_nat (length wr) + Z.of_nat (length (written [op])) <= kTxBufferSize ->
  tx_ok (step_tx op u).1 /\
  in_sync (step_tx op u).1 (sent ++ sent_bytes (step_tx op u).2)
          (wr ++ written [op]).
Proof.
  intros Hok Hy Hb. pose proof Hok as (Ha & Hh & Hr & Hi).
  pose proof Hr as (Hs0 & Hsl & Hlk).
  pose proof (in_sync_queued u sent wr Hy ltac:(lia)) as Hq.
  destruct op as [aBuf| |]; cbn [step_tx written] in *;
    rewrite app_nil_r in *.
  - pose proof (Output_tx_ok aBuf u Hok) as H1.
    pose proof (Output_sync aBuf u sent wr Ha Hh Hr Hy ltac:(lia)) as [_ H2].
    now destruct (Output aBuf u) as [[n u1] e1].
  - split; [now apply Send_tx_ok | now apply Send_sync].
  - split; [now apply SendDoneTask_tx_ok | now apply SendDoneTask_sync].
Qed.

Lemma run_tx_sync ops : forall u sent wr,
  tx_ok u -> in_sync u sent wr ->
  Z.of_nat (length wr) + Z.of_nat (length (written ops)) <= kTxBufferSize ->
  tx_ok (run_tx ops u).1 /\
  in_sync (run_tx ops u).1 (sent ++ sent_bytes (run_tx ops u).2)
          (wr ++ written ops).
Proof.
  induction ops as [|op ops IH]; intros u sent wr Hok Hy Hb.
  - cbn. now rewrite !app_nil_r.
  - change (op :: ops) with ([op] ++ ops) in Hb |- *.
    rewrite written_app, length_app in Hb. rewrite written_app.
    destruct (step_tx_sync op u sent wr Hok Hy ltac:(lia)) as [H1 H2].
    cbn [app run_tx]. destruct (step_tx op u) as [u1 e1]. cbn [fst snd] in *.
    specialize (IH u1 _ _ H1 H2).
    rewrite length_app in IH. specialize (IH ltac:(lia)).
    destruct (run_tx ops u1) as [u2 e2]. cbn [fst snd] in *.
    now rewrite sent_bytes_app, !app_assoc.
Qed.

Lemma drain_sync fuel : forall u sent wr,
  tx_ok u -> in_sync u sent wr -> mTxLength u <= Z.of_nat fuel ->
  tx_ok (drain fuel u).1 /\
  in_sync (drain fuel u).1 (sent ++ sent_bytes (drain fuel u).2) wr /\
  mSendLength (drain fuel u).1 = 0.
Proof.
  induction fuel as [|fuel IH]; intros u sent wr Hok Hy Hf;
    pose proof Hok as (Ha & Hh & Hr & Hi);
    pose proof Hr as (Hs0 & Hsl & Hlk); cbn [drain];
    destruct (mSendLength u =? 0) eqn:E.
  1, 3: apply Z.eqb_eq in E; cbn; now rewrite app_nil_r.
  - apply Z.eqb_neq in E. lia.
  - apply Z.eqb_neq in E.
    pose proof (SendDoneTask_tx_ok u Hok) as H1.
    pose proof (SendDoneTask_sync u sent wr Ha Hr Hy) as H2.
    assert (H3 : mTxLength (SendDoneTask u).1 <= Z.of_nat fuel).
    { rewrite SendDoneTask_unfold by assumption.
      destruct (Send_frame (advanced u)) as (_ & _ & -> & _). cbn. lia. }
    destruct (SendDoneTask u) as [u1 e1]. cbn [fst snd] in *.
    specialize (IH u1 _ _ H1 H2 H3).
    destruct (drain fuel u1) as [u2 e2]. cbn [fst snd] in *.
    now rewrite sent_bytes_app, app_assoc.
Qed.

Lemma in_sync_drained u sent wr :
  tx_ok u -> in_sync u sent wr -> mSendLength u = 0 ->
  sent = wr /\ mTxLength u = 0.
Proof.
  intros (_ & _ & _ & Hi) (done & -> & ->) Hs. specialize (Hi Hs).
  split; [|exact Hi]. unfold pending. now rewrite Hs, Hi.
Qed.

Lemma write_and_complete_sync ws : forall u sent wr,
  tx_ok u -> in_sync u sent wr -> mTxLength u = 0 ->
  Z.of_nat (length (concat ws)) <= kTxBufferSize ->
  let r := write_and_complete (Z.to_nat kTxBufferSize) ws u in
  tx_ok r.1 /\ in_sync r.1 (sent ++ sent_bytes r.2) (wr ++ concat ws)
  /\ mTxLength r.1 = 0.
Proof.
  induction ws as [|w ws IH]; intros u sent wr Hok Hy Hl Hb r; subst r.
  - cbn. now rewrite !app_nil_r.
  - cbn [concat write_and_complete] in *. rewrite length_app in Hb.
    pose proof Hok as (Ha & Hh & Hr & Hi).
    pose proof (Output_tx_ok w u Hok) as H1.
    pose proof (Output_sync w u sent wr Ha Hh Hr Hy ltac:(lia)) as [_ H2].
    destruct (Output w u) as [[n u1] e1]. cbn [fst snd] in *.
    assert (Hq : mTxLength u1 <= Z.of_nat (Z.to_nat kTxBufferSize)).
    { destruct H1 as (_ & _ & (_ & _ & ?) & _). lia. }
    destruct (drain_sync _ u1 _ _ H1 H2 Hq) as (H3 & H4 & H5).
    destruct (drain (Z.to_nat kTxBufferSize) u1) as [u2 e2].
    cbn [fst snd] in *.
    destruct H3 as (Ha2 & Hh2 & Hr2 & Hi2).
    specialize (IH u2 _ _ (conj Ha2 (conj Hh2 (conj Hr2 Hi2))) H4
                  (Hi2 H5) ltac:(lia)).
    cbn zeta in IH.
    destruct (write_and_complete (Z.to_nat kTxBufferSize) ws u2) as [u3 e3].
    cbn [fst snd] in *.
    now rewrite !sent_bytes_app, !app_assoc in *.
Qed.

(** C2. Start from a ring with nothing queued. For every sequence of
    calls of [Output] whose spans total at most the capacity, completed
    by the driver in either way -
    (a) calls of [Output], of the send-pump and of [SendDoneTask] in any
        order, and then [SendDoneTask] for as long as a send is
        outstanding;
    (b) after each [Output], [SendDoneTask] for as long as a send is
        outstanding -
    the spans given to [otPlatUartSend], concatenated, are the bytes given
    to [Output], in order; and the ring ends empty with nothing in
    flight. *)
Theorem ring_round_trip (u : Uart) :
  tx_array_ok u -> head_ok u -> mTxLength u = 0 -> mSendLength u = 0 ->
  (forall ops,
     Z.of_nat (length (written ops)) <= kTxBufferSize ->
     let r1 := run_tx ops u in
     let r2 := drain (Z.to_nat kTxBufferSize) r1.1 in
     sent_bytes (r1.2 ++ r2.2) = written ops
     /\ mTxLength r2.1 = 0 /\ mSendLength r2.1 = 0) /\
  (forall ws,
     Z.of_nat (length (concat ws)) <= kTxBufferSize ->
     let r := write_and_complete (Z.to_nat kTxBufferSize) ws u in
     sent_bytes r.2 = concat ws
     /\ mTxLength r.1 = 0 /\ mSendLength r.1 = 0).
Proof.
  intros Ha Hh Hl Hs.
  assert (Hok : tx_ok u).
  { unfold tx_ok, ring_inv, idle_empty.
    split; [assumption|]. split; [assumption|]. lia. }
  pose proof (in_sync_empty u Hl) as Hy.
  split.
  - intros ops Hb r1 r2.
    destruct (run_tx_sync ops u [] [] Hok Hy ltac:(cbn; lia)) as [H1 H2].
    fold r1 in H1, H2.
    assert (Hq : mTxLength r1.1 <= Z.of_nat (Z.to_nat kTxBufferSize)).
    { destruct H1 as (_ & _ & (_ & _ & ?) & _). lia. }
    destruct (drain_sync _ r1.1 _ _ H1 H2 Hq) as (H3 & H4 & H5).
    fold r2 in H3, H4, H5.
    destruct (in_sync_drained _ _ _ H3 H4 H5) as [E1 E2].
    cbn [app] in E1. rewrite sent_bytes_app. tauto.
  - intros ws Hb r.
    destruct (write_and_complete_sync ws u [] [] Hok Hy Hl Hb)
      as (H1 & H2 & H3).
    fold r in H1, H2, H3. cbn [app] in H2.
    assert (H4 : mSendLength r.1 = 0).
    { destruct H1 as (_ & _ & (? & ? & _) & _). lia. }
    destruct (in_sync_drained _ _ _ H1 H2 H4) as [E1 E2]. tauto.
Qed.

(** ** More on the ring: the queue, the span in flight, draining *)

Lemma pending_Output_gen aBuf u :
  tx_array_ok u -> 0 <= mTxLength u <= kTxBufferSize ->
  pending (Output aBuf u).1.2 =
  pending u ++ take (Z.to_nat (Z.min (wrap16 (Z.of_nat (length aBuf)))
                                     (kTxBufferSize - mTxLength u))) aBuf.
Proof.
  intros Ha Hl. rewrite Output_unfold_gen by assumption. cbn [fst snd].
  rewrite pending_Send. apply pending_Output_loop; try (assumption || lia).
  rewrite length_take. lia.
Qed.

(** X1. [Output] appends to the queue: the queued bytes stay as they
    are, in order, and as many bytes of the span as there is room for
    follow them. *)
Theorem Output_appends (aBuf : list Z) (u : Uart) :
  tx_array_ok u -> 0 <= mTxLength u <= kTxBufferSize ->
  Z.of_nat (length aBuf) <= 65535 ->
  pending (Output aBuf u).1.2 =
  pending u ++ take (Z.to_nat (kTxBufferSize - mTxLength u)) aBuf.
Proof.
  intros Ha Hl Hb. rewrite pending_Output_gen by assumption.
  rewrite wrap16_small by lia. f_equal.
  destruct (Z_le_gt_dec (Z.of_nat (length aBuf))
                        (kTxBufferSize - mTxLength u)) as [H|H].
  - rewrite Z.min_l by lia. rewrite !take_ge by lia. reflexivity.
  - rewrite Z.min_r by lia. reflexivity.
Qed.

Lemma Send_span_ok u :
  head_ok u -> ring_inv u -> span_ok u -> span_ok (Send u).1.
Proof.
  intros Hh (Hs0 & Hsl & Hlk) Hp. unfold span_ok in *.
  destruct (Z.eq_dec (mSendLength u) 0) as [Hs|Hs].
  - destruct (Z.eq_dec (mTxLength u) 0) as [Hl|Hl].
    + now rewrite Send_idle_empty.
    + destruct (Send_idle_queued u Hs Hh) as [Hn ->]; [lia|]. cbn. lia.
  - now rewrite Send_busy.
Qed.

Lemma Output_span_ok aBuf u :
  tx_ok u -> span_ok u -> span_ok (Output aBuf u).1.2.
Proof.
  intros (Ha & Hh & Hr & Hi) Hp. pose proof Hr as (Hs0 & Hsl & Hlk).
  rewrite Output_unfold_gen by lia. cbn [fst snd].
  set (n := Z.min _ _). set (bs := take (Z.to_nat n) aBuf).
  assert (Hbs : Z.of_nat (length bs) <= kTxBufferSize - mTxLength u).
  { subst bs. rewrite length_take. lia. }
  destruct (Output_loop_frame bs u) as (Eh & Es & _).
  pose proof (Output_loop_length bs u ltac:(lia) ltac:(lia)) as El.
  apply Send_span_ok.
  - unfold head_ok. now rewrite Eh.
  - unfold ring_inv. rewrite Es, El. lia.
  - unfold span_ok in *. now rewrite Eh, Es.
Qed.

Lemma SendDoneTask_span_ok u : tx_ok u -> span_ok (SendDoneTask u).1.
Proof.
  intros (Ha & Hh & Hr & Hi). rewrite SendDoneTask_unfold by assumption.
  destruct (advanced_ok u Ha Hr) as (Ha' & Hh' & Hr').
  apply Send_span_ok; try assumption.
  unfold span_ok, head_ok in *. cbn in *. lia.
Qed.

Lemma ReceiveTask_span_ok aBuf :
  preserves (fun u => tx_ok u /\ span_ok u) (ReceiveTask aBuf).
Proof.
  apply preserves_ReceiveTask; try (intros; assumption).
  intros u b [H1 H2]. split; [now apply Output_tx_ok|now apply Output_span_ok].
Qed.

Lemma reachable_span_ok u : reachable u -> tx_ok u /\ span_ok u.
Proof.
  induction 1 as [i|u aBuf _ IH|u _ IH|u _ IH|u aBuf u' evs _ IH E].
  - split; [apply Uart_new_tx_ok|]. unfold span_ok. cbn. lia.
  - destruct IH. split; [now apply Output_tx_ok|now apply Output_span_ok].
  - destruct IH as [H1 H2]. split; [now apply Send_tx_ok|].
    destruct H1 as (_ & ? & ? & _). now apply Send_span_ok.
  - destruct IH. split; [now apply SendDoneTask_tx_ok|].
    now apply SendDoneTask_span_ok.
  - eapply ReceiveTask_span_ok; eauto.
Qed.

Lemma span_take u :
  tx_ok u -> span_ok u ->
  send_span u = take (Z.to_nat (mSendLength u)) (pending u).
Proof.
  intros (Ha & Hh & (Hs0 & Hsl & Hlk) & _) Hp. unfold send_span, span_ok in *.
  apply take_pending; (assumption || lia).
Qed.

(** X2. In every reachable state the span in flight ends inside the
    transmit array, has [mSendLength] bytes, and is the front of the
    queue. *)
Theorem in_flight_span (u : Uart) :
  reachable u ->
  mTxHead u + mSendLength u <= kTxBufferSize /\
  length (send_span u) = Z.to_nat (mSendLength u) /\
  send_span u = take (Z.to_nat (mSendLength u)) (pending u).
Proof.
  intros Hr. destruct (reachable_span_ok u Hr) as [Hok Hp].
  split; [exact Hp|]. rewrite (span_take u Hok Hp).
  split; [|reflexivity].
  destruct Hok as (_ & _ & (? & ? & ?) & _).
  rewrite length_take, pending_length. lia.
Qed.

Lemma step_tx_busy op u :
  tx_ok u -> span_ok u -> mSendLength u <> 0 -> is_SendDone op = false ->
  tx_ok (step_tx op u).1 /\ span_ok (step_tx op u).1 /\
  mSendLength (step_tx op u).1 = mSendLength u /\
  send_span (step_tx op u).1 = send_span u.
Proof.
  intros Hok Hp Hs Hop. pose proof Hok as (Ha & Hh & Hr & Hi).
  pose proof Hr as (Hs0 & Hsl & Hlk).
  destruct op as [aBuf| |]; cbn in Hop; try discriminate; cbn [step_tx].
  - pose proof (Output_tx_ok aBuf u Hok) as H1.
    pose proof (Output_span_ok aBuf u Hok Hp) as H2.
    destruct (Output_busy aBuf u Hs) as [_ H3].
    pose proof (pending_Output_gen aBuf u Ha ltac:(lia)) as H4.
    destruct (Output aBuf u) as [[n u1] e1]. cbn [fst snd] in *.
    split; [assumption|]. split; [assumption|]. split; [assumption|].
    rewrite (span_take u1 H1 H2), (span_take u Hok Hp), H3, H4.
    apply take_app_le. rewrite pending_length. lia.
  - rewrite Send_busy by assumption. cbn. tauto.
Qed.

(** X3. The bytes handed to the driver stay as they are while the send
    is in flight: from a reachable state with a send outstanding, no
    sequence of calls of [Output] and of the send-pump changes the span at
    [mTxBuffer + mTxHead]. *)
Theorem in_flight_untouched (ops : list TxOp) (u : Uart) :
  reachable u -> mSendLength u <> 0 ->
  forallb (fun op => negb (is_SendDone op)) ops = true ->
  send_span (run_tx ops u).1 = send_span u.
Proof.
  intros Hr. destruct (reachable_span_ok u Hr) as [Hok Hp]. clear Hr.
  revert u Hok Hp. induction ops as [|op ops IH]; intros u Hok Hp Hs Hops;
    [reflexivity|].
  cbn [forallb] in Hops. apply andb_prop in Hops as [Hop Hops].
  apply negb_true_iff in Hop.
  destruct (step_tx_busy op u Hok Hp Hs Hop) as (H1 & H2 & H3 & H4).
  cbn [run_tx]. destruct (step_tx op u) as [u1 e1]. cbn [fst snd] in *.
  specialize (IH u1 H1 H2 ltac:(congruence) Hops).
  destruct (run_tx ops u1) as [u2 e2]. cbn [fst snd] in *. congruence.
Qed.

Lemma pending_advanced u :
  ring_inv u ->
  pending (advanced u) = drop (Z.to_nat (mSendLength u)) (pending u).
Proof.
  intros Hr. pose proof Hr as (Hs0 & Hsl & Hlk).
  rewrite (pending_split u Hr) at 1.
  rewrite drop_app_length'; [reflexivity|].
  rewrite length_take, pending_length. lia.
Qed.

Lemma Send_sent u :
  tx_array_ok u -> head_ok u -> ring_inv u -> mSendLength u = 0 ->
  mSendLength (Send u).1
  = Z.min (mTxLength u) (kTxBufferSize - mTxHead u) /\
  sent_bytes (Send u).2 = take (Z.to_nat (mSendLength (Send u).1)) (pending u).
Proof.
  intros Ha Hh (Hs0 & Hsl & Hlk) Hs. pose proof Hh as [Hh0 Hh1].
  destruct (Z.eq_dec (mTxLength u) 0) as [Hl|Hl].
  - rewrite Send_idle_empty by assumption. cbn. rewrite Hs, Hl.
    split; [lia|]. now rewrite take_0.
  - destruct (Send_idle_queued u Hs Hh) as [Hn ->]; [lia|]. cbn.
    split; [reflexivity|]. rewrite app_nil_r.
    apply take_pending; (assumption || lia).
Qed.

(** X4. Completion of a send takes exactly the bytes in flight off the
    front of the queue: the head moves on by [mSendLength] around the end
    of the array, and the span that the send-pump hands to the driver
    next is the front of what remains, up to the end of the array. *)
Theorem SendDoneTask_completes (u : Uart) :
  tx_ok u ->
  let r := SendDoneTask u in
  mTxHead r.1 = (mTxHead u + mSendLength u) mod kTxBufferSize /\
  mTxLength r.1 = mTxLength u - mSendLength u /\
  pending r.1 = drop (Z.to_nat (mSendLength u)) (pending u) /\
  mSendLength r.1 = Z.min (mTxLength r.1) (kTxBufferSize - mTxHead r.1) /\
  sent_bytes r.2 = take (Z.to_nat (mSendLength r.1)) (pending r.1).
Proof.
  intros (Ha & Hh & Hr & Hi) r. subst r.
  rewrite SendDoneTask_unfold by assumption.
  destruct (advanced_ok u Ha Hr) as (Ha' & Hh' & Hr').
  destruct (Send_frame (advanced u)) as (_ & Eh & El & _).
  destruct (Send_sent (advanced u) Ha' Hh' Hr' eq_refl) as [Es Eb].
  rewrite pending_Send, Eh, El, pending_advanced by assumption.
  split; [reflexivity|]. split; [reflexivity|]. split; [reflexivity|].
  split; [exact Es|].
  now rewrite Eb, pending_advanced.
Qed.

(** X5. A write that does not fit between the head and the end of the
    array goes to the driver in two spans: on an empty ring, [Output]
    sends the bytes up to the end of the array, the first completion
    sends the rest from the start of the array, and the second completion
    leaves the ring empty. *)
Theorem Output_wraps (w : list Z) (u : Uart) :
  tx_array_ok u -> head_ok u -> mTxLength u = 0 -> mSendLength u = 0 ->
  kTxBufferSize - mTxHead u < Z.of_nat (length w) <= kTxBufferSize ->
  let n := Z.to_nat (kTxBufferSize - mTxHead u) in
  let r1 := Output w u in
  let r2 := SendDoneTask r1.1.2 in
  let r3 := SendDoneTask r2.1 in
  r1.1.1 = Z.of_nat (length w) /\
  r1.2 = [EvUartSend (take n w) (kTxBufferSize - mTxHead u)] /\
  mTxHead r2.1 = 0 /\
  r2.2 = [EvUartSend (drop n w)
             (Z.of_nat (length w) - (kTxBufferSize - mTxHead u))] /\
  r3.2 = [] /\ mTxLength r3.1 = 0 /\ mSendLength r3.1 = 0.
Proof.
  intros Ha Hh Hl Hs Hw n r1 r2 r3. pose proof Hh as [Hh0 Hh1].
  (* the write *)
  assert (E1 : r1 = (Z.of_nat (length w),
                     (Send (Output_loop w u)).1, (Send (Output_loop w u)).2)).
  { subst r1. rewrite Output_unfold by lia.
    rewrite Z.min_l by lia. now rewrite Nat2Z.id, firstn_all. }
  set (u1 := Output_loop w u) in *.
  destruct (Output_loop_frame w u) as (Eh1 & Es1 & _ & _ & _ & Eb1).
  pose proof (Output_loop_length w u ltac:(lia) ltac:(lia)) as El1.
  pose proof (pending_Output_loop w u Ha ltac:(lia) ltac:(lia)) as Ep1.
  fold u1 in Eh1, Es1, Eb1, El1, Ep1.
  assert (Ep0 : pending u = []).
  { unfold pending. rewrite Hl. reflexivity. }
  rewrite Ep0 in Ep1. cbn [app] in Ep1.
  assert (Ha1 : tx_array_ok u1) by (unfold tx_array_ok; congruence).
  assert (Hh1' : head_ok u1) by (unfold head_ok; rewrite Eh1; assumption).
  destruct (Send_idle_queued u1 ltac:(congruence) Hh1' ltac:(lia))
    as [Hn1 ES1].
  rewrite Eh1, El1, Z.min_r in ES1 by lia. fold n in ES1.
  rewrite ES1 in E1.
  set (u2 := set_mSendLength (kTxBufferSize - mTxHead u) u1) in *.
  assert (T1 : take n (drop (Z.to_nat (mTxHead u)) (mTxBuffer u1)) = take n w).
  { rewrite <- Ep1. rewrite <- Eh1. subst n. rewrite <- Eh1.
    apply take_pending; (assumption || lia). }
  rewrite T1 in E1.
  (* the first completion *)
  assert (Hr2 : ring_inv u2) by (unfold ring_inv, u2; cbn; lia).
  assert (Ha2 : tx_array_ok u2) by exact Ha1.
  assert (E2 : r2 = Send (advanced u2)).
  { subst r2. rewrite E1. cbn [fst snd]. now apply SendDoneTask_unfold. }
  destruct (advanced_ok u2 Ha2 Hr2) as (Ha3 & Hh3 & Hr3).
  assert (Eh3 : mTxHead (advanced u2) = 0).
  { cbn. rewrite Eh1.
    replace (mTxHead u + (kTxBufferSize - mTxHead u))
      with kTxBufferSize by lia.
    apply Z_mod_same_full. }
  assert (El3 : mTxLength (advanced u2)
                = Z.of_nat (length w) - (kTxBufferSize - mTxHead u)).
  { cbn. lia. }
  assert (Ep3 : pending (advanced u2) = drop n w).
  { rewrite pending_advanced by assumption.
    change (pending u2) with (pending u1). rewrite Ep1. reflexivity. }
  destruct (Send_idle_queued (advanced u2) eq_refl Hh3 ltac:(lia))
    as [Hn3 ES3].
  rewrite Eh3, El3, Z.min_l in ES3 by lia.
  assert (T3 : take (Z.to_nat (Z.of_nat (length w)
                               - (kTxBufferSize - mTxHead u)))
                 (drop (Z.to_nat 0) (mTxBuffer (advanced u2))) = drop n w).
  { rewrite <- Eh3. rewrite <- El3 at 1.
    rewrite take_pending by (assumption || lia).
    rewrite Ep3. apply take_ge. rewrite length_drop. lia. }
  rewrite T3 in ES3. rewrite ES3 in E2.
  set (u4 := set_mSendLength
               (Z.of_nat (length w) - (kTxBufferSize - mTxHead u))
               (advanced u2)) in *.
  (* the second completion *)
  assert (Hr4 : ring_inv u4) by (unfold ring_inv, u4; cbn; lia).
  assert (E3 : r3 = Send (advanced u4)).
  { subst r3. rewrite E2. cbn [fst snd]. now apply SendDoneTask_unfold. }
  destruct (advanced_ok u4 Ha3 Hr4) as (Ha5 & Hh5 & Hr5).
  assert (El5 : mTxLength (advanced u4) = 0) by (cbn; lia).
  rewrite (Send_idle_empty (advanced u4) eq_refl Hh5 El5) in E3.
  rewrite E1, E2, E3. cbn [fst snd].
  repeat split; (reflexivity || exact El5 || exact Eh3).
Qed.

Lemma drain_idle fuel u : mSendLength u = 0 -> drain fuel u = (u, []).
Proof. intros Hs. destruct fuel; cbn; now rewrite Hs. Qed.

Lemma drain_busy fuel u :
  mSendLength u <> 0 ->
  (drain (S fuel) u).1 = (drain fuel (SendDoneTask u).1).1.
Proof.
  intros Hs. cbn [drain]. apply Z.eqb_neq in Hs. rewrite Hs.
  destruct (SendDoneTask u) as [u1 e1]. cbn.
  now destruct (drain fuel u1).
Qed.

Lemma drain_sync_any fuel : forall u sent wr,
  tx_ok u -> in_sync u sent wr ->
  tx_ok (drain fuel u).1 /\
  in_sync (drain fuel u).1 (sent ++ sent_bytes (drain fuel u).2) wr.
Proof.
  induction fuel as [|fuel IH]; intros u sent wr Hok Hy;
    pose proof Hok as (Ha & Hh & Hr & Hi); cbn [drain];
    destruct (mSendLength u =? 0) eqn:E;
    try (cbn; now rewrite app_nil_r).
  pose proof (SendDoneTask_tx_ok u Hok) as H1.
  pose proof (SendDoneTask_sync u sent wr Ha Hr Hy) as H2.
  destruct (SendDoneTask u) as [u1 e1]. cbn [fst snd] in *.
  specialize (IH u1 _ _ H1 H2).
  destruct (drain fuel u1) as [u2 e2]. cbn [fst snd] in *.
  now rewrite sent_bytes_app, app_assoc.
Qed.

Lemma SendDoneTask_counters_eq u :
  tx_ok u ->
  tx_ok (SendDoneTask u).1 /\
  mTxHead (SendDoneTask u).1
  = (mTxHead u + mSendLength u) mod kTxBufferSize /\
  mTxLength (SendDoneTask u).1 = mTxLength u - mSendLength u /\
  mSendLength (SendDoneTask u).1
  = Z.min (mTxLength (SendDoneTask u).1)
          (kTxBufferSize - mTxHead (SendDoneTask u).1).
Proof.
  intros Hok. split; [now apply SendDoneTask_tx_ok|].
  destruct Hok as (Ha & Hh & Hr & Hi).
  rewrite SendDoneTask_unfold by assumption.
  destruct (advanced_ok u Ha Hr) as (Ha' & Hh' & Hr').
  destruct (Send_frame (advanced u)) as (_ & Eh & El & _).
  destruct (Send_sent (advanced u) Ha' Hh' Hr' eq_refl) as [Es _].
  rewrite Eh, El, Es. cbn. tauto.
Qed.

Lemma drain_step fuel u :
  tx_ok u -> mSendLength u <> 0 ->
  exists u1,
    tx_ok u1 /\ (drain (S fuel) u).1 = (drain fuel u1).1 /\
    mTxHead u1 = (mTxHead u + mSendLength u) mod kTxBufferSize /\
    mTxLength u1 = mTxLength u - mSendLength u /\
    mSendLength u1 = Z.min (mTxLength u1) (kTxBufferSize - mTxHead u1).
Proof.
  intros Hok Hs. exists (SendDoneTask u).1.
  destruct (SendDoneTask_counters_eq u Hok) as (H1 & H2 & H3 & H4).
  split; [exact H1|]. split; [now apply drain_busy|]. tauto.
Qed.

Lemma drain_three_idle u : tx_ok u -> mSendLength (drain 3 u).1 = 0.
Proof.
  intros Hok.
  destruct (Z.eq_dec (mSendLength u) 0) as [E0|E0];
    [now rewrite drain_idle|].
  destruct (drain_step 2 u Hok E0) as (u1 & Hok1 & -> & Eh1 & El1 & Es1).
  destruct (Z.eq_dec (mSendLength u1) 0) as [E1|E1];
    [now rewrite drain_idle|].
  destruct (drain_step 1 u1 Hok1 E1) as (u2 & Hok2 & -> & Eh2 & El2 & Es2).
  destruct (Z.eq_dec (mSendLength u2) 0) as [E2|E2];
    [now rewrite drain_idle|].
  destruct (drain_step 0 u2 Hok2 E2) as (u3 & Hok3 & -> & Eh3 & El3 & Es3).
  assert (E3 : mSendLength u3 = 0); [|now rewrite drain_idle].
  destruct Hok1 as (_ & [? ?] & (? & ? & ?) & _).
  destruct Hok2 as (_ & [? ?] & (? & ? & ?) & _).
  destruct Hok3 as (_ & [? ?] & (? & ? & ?) & _).
  assert (Ew : mTxHead u1 + mSendLength u1 = kTxBufferSize) by lia.
  rewrite Ew, Z_mod_same_full in Eh2. lia.
Qed.

(** X6. Three completions always drain the ring: from any state that
    satisfies the invariants of the ring, after at most three calls of
    [SendDoneTask] nothing is in flight and nothing is queued, and the
    spans sent on the way are the queued bytes behind the span that was in
    flight, in order. *)
Theorem drain_three (u : Uart) :
  tx_ok u ->
  let r := drain 3 u in
  mSendLength r.1 = 0 /\ mTxLength r.1 = 0 /\
  sent_bytes r.2 = drop (Z.to_nat (mSendLength u)) (pending u).
Proof.
  intros Hok r.
  assert (Hy : in_sync u (take (Z.to_nat (mSendLength u)) (pending u))
                       (pending u)) by now exists [].
  destruct (drain_sync_any 3 u _ _ Hok Hy) as [H1 H2]. fold r in H1, H2.
  pose proof (drain_three_idle u Hok) as H3. fold r in H3.
  destruct (in_sync_drained _ _ _ H1 H2 H3) as [E1 E2].
  split; [exact H3|]. split; [exact E2|].
  rewrite <- (take_drop (Z.to_nat (mSendLength u)) (pending u)) in E1 at 2.
  now apply app_inv_head in E1.
Qed.

(** X7. A write that is accepted in no part changes nothing: in a state
    that satisfies the invariants of the ring, [Output] of an empty span,
    and [Output] of any span on a full ring, returns 0, leaves the object
    as it is and calls nothing. *)
Theorem Output_nothing (aBuf : list Z) (u : Uart) :
  tx_ok u -> aBuf = [] \/ mTxLength u = kTxBufferSize ->
  Output aBuf u = (0, u, []).
Proof.
  intros (Ha & Hh & (Hs0 & Hsl & Hlk) & Hi) Hc.
  rewrite Output_unfold_gen by lia.
  assert (En : Z.min (wrap16 (Z.of_nat (length aBuf)))
                     (kTxBufferSize - mTxLength u) = 0).
  { pose proof (Z.mod_pos_bound (Z.of_nat (length aBuf)) 65536 ltac:(lia)).
    destruct Hc as [-> | Hc].
    - change (wrap16 (Z.of_nat (length []))) with 0. lia.
    - unfold wrap16. lia. }
  rewrite En. cbn [Z.to_nat take Output_loop].
  destruct (Z.eq_dec (mSendLength u) 0) as [Hs|Hs].
  - now rewrite Send_idle_empty by auto.
  - now rewrite Send_busy.
Qed.

(** ** Formatted output and the log front end *)

Lemma Output_room aBuf u :
  tx_array_ok u -> 0 <= mTxLength u ->
  mTxLength u + Z.of_nat (length aBuf) <= kTxBufferSize ->
  (Output aBuf u).1.1 = Z.of_nat (length aBuf) /\
  tx_array_ok (Output aBuf u).1.2 /\
  mTxLength (Output aBuf u).1.2 = mTxLength u + Z.of_nat (length aBuf) /\
  pending (Output aBuf u).1.2 = pending u ++ aBuf.
Proof.
  intros Ha H0 Hb.
  pose proof (pending_Output_gen aBuf u Ha ltac:(lia)) as Ep.
  unfold tx_array_ok. rewrite Output_array, Ep.
  rewrite Output_unfold by lia. cbn [fst snd].
  destruct (Send_frame (Output_loop
              (take (Z.to_nat (Z.min (Z.of_nat (length aBuf))
                                     (kTxBufferSize - mTxLength u))) aBuf) u))
    as (_ & _ & -> & _).
  rewrite wrap16_small by lia.
  rewrite Z.min_l by lia. rewrite Nat2Z.id, firstn_all.
  rewrite Output_loop_length by lia. tauto.
Qed.

Lemma strlen_le l : (strlen l <= length l)%nat.
Proof.
  induction l as [|c l IH]; cbn; [lia|]. destruct (c =? 0); lia.
Qed.

Lemma strlen_app_nul l : strlen (l ++ [0]) = strlen l.
Proof.
  induction l as [|c l IH]; cbn; [reflexivity|].
  destruct (c =? 0); [reflexivity | now rewrite IH].
Qed.

Lemma strlen_nonzero l : Forall (fun c => c <> 0) l -> strlen l = length l.
Proof.
  induction 1 as [|c l Hc _ IH]; cbn; [reflexivity|].
  apply Z.eqb_neq in Hc. now rewrite Hc, IH.
Qed.

Lemma c_string_nonzero l : Forall (fun c => c <> 0) (c_string l).
Proof.
  unfold c_string. induction l as [|c l IH]; cbn; [constructor|].
  destruct (c =? 0) eqn:E; cbn; [constructor|].
  constructor; [now apply Z.eqb_neq | exact IH].
Qed.

Lemma OutputFormat_unfold text u :
  0 < kMaxLineLength <= 65536 ->
  OutputFormat text u
  = Output (c_string (take (Z.to_nat (kMaxLineLength - 1)) text)) u.
Proof.
  intros Hk. unfold OutputFormat, vsnprintf, c_string.
  destruct (kMaxLineLength <=? 0) eqn:E; [apply Z.leb_le in E; lia|].
  set (t := take (Z.to_nat (kMaxLineLength - 1)) text).
  pose proof (strlen_le t) as Hle.
  assert (Ht : (length t <= Z.to_nat (kMaxLineLength - 1))%nat).
  { subst t. rewrite length_take. lia. }
  rewrite strlen_app_nul, wrap16_small by lia.
  rewrite Nat2Z.id. now rewrite take_app_le.
Qed.

(** X13. [OutputFormat] passes to [Output] the rendered text cut at
    [kMaxLineLength - 1] bytes and at its first NUL: never more than
    [kMaxLineLength - 1] bytes, never a NUL, always a prefix of the text,
    and the whole text when it is shorter than [kMaxLineLength] and holds
    no NUL. *)
Theorem OutputFormat_text (text : list Z) (u : Uart) :
  0 < kMaxLineLength <= 65536 ->
  let s := c_string (take (Z.to_nat (kMaxLineLength - 1)) text) in
  OutputFormat text u = Output s u /\
  Z.of_nat (length s) <= kMaxLineLength - 1 /\
  Forall (fun c => c <> 0) s /\
  (exists rest, text = s ++ rest) /\
  (Forall (fun c => c <> 0) text ->
   Z.of_nat (length text) < kMaxLineLength -> s = text).
Proof.
  intros Hk s. split; [now apply OutputFormat_unfold|].
  set (t := take (Z.to_nat (kMaxLineLength - 1)) text) in *.
  pose proof (strlen_le t) as Hle.
  assert (Ht : (length t <= Z.to_nat (kMaxLineLength - 1))%nat).
  { subst t. rewrite length_take. lia. }
  split; [|split; [apply c_string_nonzero|split]].
  - subst s. unfold c_string. rewrite length_take. lia.
  - exists (drop (strlen t) t ++ drop (Z.to_nat (kMaxLineLength - 1)) text).
    subst s. unfold c_string. rewrite app_assoc, take_drop.
    subst t. now rewrite take_drop.
  - intros Hz Hl. subst s. unfold c_string.
    assert (Et : t = text) by (subst t; apply take_ge; lia).
    rewrite Et, strlen_nonzero by assumption. apply firstn_all.
Qed.

Lemma OutputFormat_plain text u :
  0 < kMaxLineLength <= 65536 ->
  Forall (fun c => c <> 0) text ->
  Z.of_nat (length text) < kMaxLineLength ->
  OutputFormat text u = Output text u.
Proof.
  intros Hk Hz Hl. rewrite OutputFormat_unfold by assumption.
  rewrite (take_ge text) by lia. unfold c_string.
  now rewrite strlen_nonzero, firstn_all.
Qed.

Lemma OutputFormat_is_Output text u :
  exists aBuf, OutputFormat text u = Output aBuf u.
Proof. unfold OutputFormat. eauto. Qed.

Lemma level_tag_ok l lt :
  level_tag l = Some lt -> length lt = 5%nat /\ Forall (fun c => c <> 0) lt.
Proof.
  destruct l; cbn; intros E; inversion E; subst; clear E;
    (split; [reflexivity | repeat constructor; discriminate]).
Qed.

Lemma region_tag_ok r rt :
  region_tag r = Some rt -> length rt = 5%nat /\ Forall (fun c => c <> 0) rt.
Proof.
  destruct r; cbn; intros E; inversion E; subst; clear E;
    (split; [reflexivity | repeat constructor; discriminate]).
Qed.

(** X14. A log line is the level tag, the region tag and the text of
    the last [OutputFormat] call, in this order, each tag five bytes: for
    a level and a region that the switches name, a text without NUL that
    is shorter than [kMaxLineLength], and a ring with room for all of it,
    [otCliLog] adds exactly these bytes to the queued bytes. *)
Theorem otCliLog_line (l : otLogLevel) (r : otLogRegion) (text : list Z)
    (u : Uart) (lt rt : list Z) :
  5 < kMaxLineLength <= 65536 ->
  level_tag l = Some lt -> region_tag r = Some rt ->
  Forall (fun c => c <> 0) text ->
  Z.of_nat (length text) < kMaxLineLength ->
  tx_array_ok u -> 0 <= mTxLength u ->
  mTxLength u + 10 + Z.of_nat (length text) <= kTxBufferSize ->
  exists u',
    (otCliLog (Some u) l r text).1 = Some u' /\
    pending u' = pending u ++ lt ++ rt ++ text /\
    length lt = 5%nat /\ length rt = 5%nat.
Proof.
  intros Hk El Er Hz Hl Ha H0 Hroom.
  destruct (level_tag_ok l lt El) as [L1 Z1].
  destruct (region_tag_ok r rt Er) as [L2 Z2].
  unfold otCliLog. rewrite El, Er.
  rewrite (OutputFormat_plain lt u) by (assumption || lia).
  destruct (Output_room lt u Ha H0 ltac:(lia)) as (_ & A1 & N1 & P1).
  destruct (Output lt u) as [[n1 u1] e1]. cbn [fst snd] in *.
  rewrite (OutputFormat_plain rt u1) by (assumption || lia).
  destruct (Output_room rt u1 A1 ltac:(lia) ltac:(lia)) as (_ & A2 & N2 & P2).
  destruct (Output rt u1) as [[n2 u2] e2]. cbn [fst snd] in *.
  rewrite (OutputFormat_plain text u2) by (assumption || lia).
  destruct (Output_room text u2 A2 ltac:(lia) ltac:(lia))
    as (_ & A3 & N3 & P3).
  destruct (Output text u2) as [[n3 u3] e3]. cbn [fst snd] in *.
  exists u3. split; [reflexivity|]. split; [|now split].
  now rewrite P3, P2, P1, <- !app_assoc.
Qed.

(** X15. What [otCliLog] drops. Without a server ([sUartServer] is
    [NULL]) and for a level that the first switch does not name, nothing
    is written. For a region that the second switch does not name, the
    level tag is already queued when the function returns, and neither a
    region tag nor the message follows it. *)
Theorem otCliLog_dropped (l : otLogLevel) (r : otLogRegion) (text : list Z)
    (u : Uart) (lt : list Z) :
  5 < kMaxLineLength <= 65536 ->
  tx_array_ok u -> 0 <= mTxLength u -> mTxLength u + 5 <= kTxBufferSize ->
  otCliLog None l r text = (None, []) /\
  otCliLog (Some u) kLogLevelOther r text = (Some u, []) /\
  (level_tag l = Some lt ->
   exists u',
     (otCliLog (Some u) l kLogRegionOther text).1 = Some u' /\
     pending u' = pending u ++ lt).
Proof.
  intros Hk Ha H0 Hroom. split; [reflexivity|]. split; [reflexivity|].
  intros El. destruct (level_tag_ok l lt El) as [L1 Z1].
  unfold otCliLog. rewrite El. cbn [region_tag].
  rewrite (OutputFormat_plain lt u) by (assumption || lia).
  destruct (Output_room lt u Ha H0 ltac:(lia)) as (_ & _ & _ & P1).
  destruct (Output lt u) as [[n1 u1] e1]. cbn [fst snd] in *.
  now exists u1.
Qed.

Lemma OutputFormat_keeps text u :
  tx_ok u ->
  tx_ok (OutputFormat text u).1.2 /\
  mRxBuffer (OutputFormat text u).1.2 = mRxBuffer u /\
  mRxLength (OutputFormat text u).1.2 = mRxLength u /\
  (mSendLength u <> 0 ->
   (OutputFormat text u).2 = [] /\
   mSendLength (OutputFormat text u).1.2 = mSendLength u).
Proof.
  intros Hok. destruct (OutputFormat_is_Output text u) as [aBuf ->].
  split; [now apply Output_tx_ok|].
  destruct (Output_rx aBuf u) as (-> & -> & _).
  split; [reflexivity|]. split; [reflexivity|]. apply Output_busy.
Qed.

(** X16. Logging does not disturb the object: whatever the level, the
    region and the message, [otCliLog] keeps the invariants of the ring
    and leaves the receive line as it is; while a send is in flight it
    calls the driver for nothing and leaves the in-flight length alone. *)
Theorem otCliLog_keeps (l : otLogLevel) (r : otLogRegion) (text : list Z)
    (u : Uart) :
  tx_ok u ->
  exists u',
    (otCliLog (Some u) l r text).1 = Some u' /\
    tx_ok u' /\ mRxBuffer u' = mRxBuffer u /\ mRxLength u' = mRxLength u /\
    (mSendLength u <> 0 ->
     (otCliLog (Some u) l r text).2 = [] /\ mSendLength u' = mSendLength u).
Proof.
  intros Hok. unfold otCliLog.
  destruct (level_tag l) as [lt|].
  2:{ exists u. cbn. tauto. }
  destruct (OutputFormat_keeps lt u Hok) as (K1 & B1 & L1 & S1).
  destruct (OutputFormat lt u) as [[n1 u1] e1]. cbn [fst snd] in *.
  destruct (region_tag r) as [rt|].
  2:{ exists u1. cbn. tauto. }
  destruct (OutputFormat_keeps rt u1 K1) as (K2 & B2 & L2 & S2).
  destruct (OutputFormat rt u1) as [[n2 u2] e2]. cbn [fst snd] in *.
  destruct (OutputFormat_keeps text u2 K2) as (K3 & B3 & L3 & S3).
  destruct (OutputFormat text u2) as [[n3 u3] e3]. cbn [fst snd] in *.
  exists u3. split; [reflexivity|]. split; [assumption|].
  split; [congruence|]. split; [congruence|].
  intros Hs. destruct (S1 Hs) as [-> E1].
  destruct (S2 ltac:(congruence)) as [-> E2].
  destruct (S3 ltac:(congruence)) as [-> E3].
  split; [reflexivity | congruence].
Qed.

(** ** Line editing *)

Section BothRanges.

Hypothesis kRx_range : 0 < kRxBufferSize <= 65535.

(** C9, as the code has it. A backspace or delete byte on an empty line
    changes nothing and calls nothing. On a line of [N > 0] bytes it
    takes the last byte off the line - the length becomes [N - 1] and the
    [N - 1] bytes before it stay - and passes the three bytes of
    [sEraseString] (backspace, space, backspace) to [Output], which
    accepts as many of them as the ring has room for: the first
    [min 3 (capacity - queued)] bytes are added to the queued bytes, all
    three when three bytes are free, a part of them or none otherwise.
    The conditions on the object hold in every reachable state. *)
Theorem ReceiveByte_backspace (c : Z) (u : Uart) :
  c = 8 \/ c = 127 ->
  (mRxLength u = 0 -> ReceiveByte c u = Ok tt u []) /\
  (0 < mRxLength u <= kRxBufferSize -> rx_array_ok u ->
   let N := mRxLength u in
   let r := Output sEraseString u in
   let u' := set_mRxBuffer (<[Z.to_nat (N - 1) := 0]> (mRxBuffer u))
               (set_mRxLength (N - 1) r.1.2) in
   ReceiveByte c u = Ok tt u' r.2 /\
   mRxLength u' = N - 1 /\
   rx_line u' = take (Z.to_nat (N - 1)) (rx_line u) /\
   filter is_ProcessLine r.2 = [] /\
   (tx_array_ok u -> 0 <= mTxLength u <= kTxBufferSize ->
    let room := kTxBufferSize - mTxLength u in
    r.1.1 = Z.min 3 room /\
    mTxLength u' = mTxLength u + Z.min 3 room /\
    pending u' = pending u ++ take (Z.to_nat room) [8; 32; 8] /\
    (3 <= room -> pending u' = pending u ++ [8; 32; 8]) /\
    (room = 0 -> pending u' = pending u))) /\
  (reachable u ->
   rx_array_ok u /\ 0 <= mRxLength u <= kRxBufferSize /\
   tx_array_ok u /\ 0 <= mTxLength u <= kTxBufferSize).
Proof.
  intros Hc. destruct (ReceiveByte_del_eval kRx_range c u Hc) as [H0 H1].
  split; [exact H0|]. split.
  - intros Hn Ha N r u'. subst N.
    destruct (Output_rx sEraseString u) as (Eb & El & Ei).
    fold r in Eb, El, Ei.
    split; [exact (H1 Hn Ha)|]. split; [reflexivity|]. split; [|split].
    + unfold rx_line. subst u'.
      cbn [mRxLength mRxBuffer set_mRxBuffer set_mRxLength].
      rewrite take_insert_ge by lia.
      rewrite take_take. f_equal. lia.
    + exact (Output_no_ProcessLine sEraseString u).
    + intros Hta Hl room.
      pose proof (Output_unfold sEraseString u Hl ltac:(cbn; lia)) as EO.
      cbn zeta in EO. fold r in EO.
      change (Z.of_nat (length sEraseString)) with 3 in EO. fold room in EO.
      assert (Ep : pending u' = pending u ++ take (Z.to_nat room) [8; 32; 8]).
      { change (pending u') with (pending r.1.2). subst r.
        rewrite pending_Output_gen by assumption.
        change (wrap16 (Z.of_nat (length sEraseString))) with 3.
        fold room. change sEraseString with [8; 32; 8]. f_equal.
        destruct (Z_le_gt_dec 3 room) as [H|H].
        - rewrite Z.min_l by lia. rewrite !take_ge by (cbn; lia). reflexivity.
        - rewrite Z.min_r by lia. reflexivity. }
      split; [now rewrite EO|]. split; [|split; [exact Ep|split]].
      * change (mTxLength u') with (mTxLength r.1.2). rewrite EO.
        cbn [fst snd].
        match goal with |- context [Send ?x] =>
          destruct (Send_frame x) as (_ & _ & -> & _) end.
        rewrite Output_loop_length
          by (try rewrite length_take; unfold room; cbn; lia).
        rewrite length_take. unfold room. cbn [length sEraseString]. lia.
      * intros H3. rewrite Ep. now rewrite take_ge by (cbn; lia).
      * intros Hz. rewrite Ep, Hz. cbn. apply app_nil_r.
  - intros Hr. destruct (reachable_rx_ok kRx_range u Hr) as (? & ? & _).
    destruct (reachable_tx_ok u Hr) as (? & _ & (? & ? & ?) & _).
    repeat split; (assumption || lia).
Qed.

Lemma ReceiveByte_plain_tx c u u1 e1 :
  plain c -> ReceiveByte c u = Ok tt u1 e1 ->
  same_tx u1 (Output [c] u).1.2.
Proof.
  intros Hc E. rewrite ReceiveByte_plain in E by assumption.
  rewrite bind_call_Output, bind_gets in E.
  match type of E with
  | match ?x with _ => _ end = _ =>
      destruct x as [[] v ev|] eqn:E1; [|discriminate]
  end.
  inversion E; subst. clear E.
  apply bind_Ok in E1 as ([] & w & e2 & e3 & E2 & E3 & _).
  unfold modify in E3. inversion E3; subst. clear E3.
  unfold store_Rx in E2. repeat case_match; try discriminate.
  inversion E2; subst. now cbn.
Qed.

Lemma ReceiveTask_plain_echo bs : forall u u' evs,
  Forall plain bs -> ReceiveTask bs u = Ok tt u' evs ->
  tx_array_ok u -> 0 <= mTxLength u ->
  mTxLength u + Z.of_nat (length bs) <= kTxBufferSize ->
  pending u' = pending u ++ bs.
Proof.
  induction bs as [|c bs IH]; intros u u' evs Hp E Ha H0 Hroom;
    cbn [length] in *.
  - cbn in E. inversion E; subst. now rewrite app_nil_r.
  - apply Forall_cons in Hp as [Hc Hp]. cbn [ReceiveTask] in E.
    apply bind_Ok in E as ([] & u1 & e1 & e2 & E1 & E2 & _).
    destruct (ReceiveByte_plain_tx c u u1 e1 Hc E1) as (Eb & Eh & El & _).
    destruct (Output_room [c] u Ha H0 ltac:(cbn; lia)) as (_ & A1 & N1 & P1).
    rewrite (IH u1 u' e2 Hp E2).
    + unfold pending at 1. rewrite Eb, Eh, El. fold (pending (Output [c] u).1.2).
      now rewrite P1, <- app_assoc.
    + unfold tx_array_ok in *. congruence.
    + lia.
    + rewrite El, N1. cbn. lia.
Qed.

(** X17. Typing fills the line and is echoed: [ReceiveTask] on plain
    bytes that fit into the receive buffer appends them to the line, in
    order, and calls no [ProcessLine]; when the ring has room for them,
    the same bytes, in the same order, are added to the queued bytes. *)
Theorem ReceiveTask_types (bs : list Z) (u : Uart) :
  Forall plain bs -> rx_array_ok u -> 0 <= mRxLength u ->
  mRxLength u + Z.of_nat (length bs) <= kRxBufferSize ->
  exists u' evs,
    ReceiveTask bs u = Ok tt u' evs /\
    rx_line u' = rx_line u ++ bs /\
    filter is_ProcessLine evs = [] /\
    (tx_array_ok u -> 0 <= mTxLength u ->
     mTxLength u + Z.of_nat (length bs) <= kTxBufferSize ->
     pending u' = pending u ++ bs).
Proof.
  intros Hp Ha H0 Hn.
  destruct (ReceiveTask_plain_line kRx_range bs u Hp Ha H0 Hn)
    as (u' & evs & E & _ & _ & R & F).
  exists u', evs. split; [exact E|]. split; [exact R|]. split; [exact F|].
  intros Hta Hl Hroom.
  exact (ReceiveTask_plain_echo bs u u' evs Hp E Hta Hl Hroom).
Qed.

(** X18. Enter on an empty line shows a new prompt: a CR or a LF
    received while the line is empty queues CR, LF, ['>'] and a space, in
    this order, when the ring has room for four bytes, and leaves the
    line empty. *)
Theorem ReceiveByte_empty_line (c : Z) (u : Uart) :
  c = 13 \/ c = 10 -> mRxLength u = 0 ->
  tx_array_ok u -> 0 <= mTxLength u -> mTxLength u + 4 <= kTxBufferSize ->
  exists u' evs,
    ReceiveByte c u = Ok tt u' evs /\
    pending u' = pending u ++ [13; 10; 62; 32] /\
    mRxLength u' = 0 /\ mRxBuffer u' = mRxBuffer u.
Proof.
  intros Hc HN Ha H0 Hroom.
  destruct (Output_room CRNL u Ha H0 ltac:(cbn; lia)) as (_ & A1 & N1 & P1).
  destruct (Output_rx CRNL u) as (Eb1 & El1 & _).
  set (u1 := (Output CRNL u).1.2) in *.
  destruct (Output_room sCommandPrompt u1 A1 ltac:(cbn in N1; lia)
              ltac:(cbn in N1 |- *; lia)) as (_ & A2 & N2 & P2).
  destruct (Output_rx sCommandPrompt u1) as (Eb2 & El2 & _).
  exists (Output sCommandPrompt u1).1.2,
         ((Output CRNL u).2 ++ (Output sCommandPrompt u1).2).
  split; [|split; [|split]].
  - rewrite ReceiveByte_eol by assumption.
    rewrite bind_call_Output, bind_gets. fold u1. rewrite El1, HN.
    cbn [Z.gtb Z.compare]. unfold bind at 1, ret at 1.
    rewrite bind_call_Output. unfold ret. cbn [app].
    now rewrite app_nil_r.
  - rewrite P2, P1, <- app_assoc. reflexivity.
  - congruence.
  - congruence.
Qed.

End BothRanges.

End TxRange.

End Uart.

Arguments mkUart {Interp}.
Arguments mRxBuffer {Interp}.
Arguments mRxLength {Interp}.
Arguments mTxBuffer {Interp}.
Arguments mTxHead {Interp}.
Arguments mTxLength {Interp}.
Arguments mSendLength {Interp}.
Arguments mInterpreter {Interp}.
Arguments set_mSendLength {Interp}.
Arguments Uart_new {Interp}.
Arguments Send {Interp}.
Arguments Output {Interp}.
Arguments SendDoneTask {Interp}.
Arguments run_tx {Interp}.
Arguments drain {Interp}.
Arguments write_and_complete {Interp}.
Arguments ReceiveByte {Interp}.
Arguments ReceiveTask {Interp}.
Arguments reachable {Interp}.
Arguments head_ok {Interp}.
Arguments ring_inv {Interp}.
Arguments idle_empty {Interp}.
Arguments tx_array_ok {Interp}.
Arguments rx_array_ok {Interp}.
Arguments pending {Interp}.
Arguments rx_line {Interp}.
Arguments Ok {Interp A}.
Arguments Stopped {Interp A}.
Arguments OutOfBounds {Interp}.
Arguments ProcessExit {Interp}.

(** * Concrete runs

    The theorems above, applied: a receive buffer of 128 bytes and a ring
    of 512 where the states are built by the constructor, and small
    arrays where a state is written out. *)

(** 128 bytes ['a'] fill the receive buffer to its capacity; the 129th is
    stored past its end. *)
Lemma ReceiveTask_overrun_witness :
  plain false 97 /\
  (exists u evs,
     ReceiveTask 128 512 false echo_interpreter
       (replicate (Z.to_nat 128) 97) (Uart_new 128 512 tt) = Ok tt u evs
     /\ mRxLength u = 128) /\
  ReceiveTask 128 512 false echo_interpreter
    (replicate (Z.to_nat 128) 97 ++ [97]) (Uart_new 128 512 tt)
  = Stopped OutOfBounds.
Proof.
  assert (Hp : plain false 97).
  { unfold plain. repeat split; (lia || discriminate). }
  split; [exact Hp|].
  apply (ReceiveTask_overrun unit 128 512 false echo_interpreter
           ltac:(lia) 97 tt Hp).
Defined.

(** A ring of 8 bytes with the head at offset 6: six bytes written in
    three calls, the first of them across the end of the array. *)
Lemma ring_round_trip_witness :
  let u := mkUart [] 0 (replicate 8 0) 6 0 0 tt in
  let ops := [OpOutput [1; 2; 3]; OpOutput [4; 5]; OpSendDone; OpOutput [6]] in
  (tx_array_ok 8 u /\ head_ok 8 u /\ mTxLength u = 0 /\ mSendLength u = 0) /\
  sent_bytes ((run_tx 8 ops u).2 ++ (drain 8 8 (run_tx 8 ops u).1).2)
  = [1; 2; 3; 4; 5; 6] /\
  sent_bytes (write_and_complete 8 8 [[1; 2; 3]; [4; 5]; [6]] u).2
  = [1; 2; 3; 4; 5; 6].
Proof.
  intros u ops.
  assert (Ha : tx_array_ok 8 u) by reflexivity.
  assert (Hh : head_ok 8 u) by (unfold head_ok, u; cbn; lia).
  split; [repeat split; (assumption || unfold u; cbn; lia)|].
  destruct (ring_round_trip unit 8 ltac:(lia) u Ha Hh eq_refl eq_refl)
    as [H1 H2].
  split.
  - exact (proj1 (H1 ops ltac:(try unfold u; cbn; lia))).
  - exact (proj1 (H2 [[1; 2; 3]; [4; 5]; [6]] ltac:(try unfold u; cbn; lia))).
Defined.

(** The state after a first write of three bytes. *)
Lemma ring_inv_invariant_witness :
  let u := (Output 512 [1; 2; 3] (Uart_new 128 512 tt)).1.2 in
  reachable 128 512 false echo_interpreter u /\
  mSendLength u <= mTxLength u /\ mTxLength u <= 512.
Proof.
  intros u.
  assert (Hr : reachable 128 512 false echo_interpreter u)
    by (apply reach_Output, reach_new).
  split; [exact Hr|].
  exact (proj2 (proj2 (ring_inv_invariant unit 128 512 false
                         echo_interpreter ltac:(lia))) u Hr).
Defined.

(** The state after a write of three bytes and the completion of the
    send it started: nothing in flight, nothing queued. *)
Lemma idle_only_when_empty_witness :
  let u := (SendDoneTask 512
              (Output 512 [1; 2; 3] (Uart_new 128 512 tt)).1.2).1 in
  (reachable 128 512 false echo_interpreter u /\ mSendLength u = 0) /\
  mTxLength u = 0.
Proof.
  intros u.
  assert (Hr : reachable 128 512 false echo_interpreter u)
    by (apply reach_SendDoneTask, reach_Output, reach_new).
  assert (Hs : mSendLength u = 0) by reflexivity.
  split; [split; assumption|].
  exact (proj2 (proj2 (idle_only_when_empty unit 128 512 false
                         echo_interpreter ltac:(lia))) u Hr Hs).
Defined.

(** Five bytes queued from offset 6 of a ring of 8: the two bytes up to
    the end of the array are sent. *)
Lemma Send_pump_witness :
  let u := mkUart [] 0 [1; 2; 3; 4; 5; 6; 7; 8] 6 5 0 tt in
  (head_ok 8 u /\ 0 <= mTxLength u /\ mSendLength u = 0 /\ 0 < mTxLength u) /\
  Send 8 u = (set_mSendLength 2 u, [EvUartSend [7; 8] 2]).
Proof.
  intros u.
  assert (Hh : head_ok 8 u) by (unfold head_ok, u; cbn; lia).
  split; [repeat split; (assumption || unfold u; cbn; lia)|].
  destruct (Send_pump unit 8 ltac:(lia) u Hh ltac:(try unfold u; cbn; lia))
    as (_ & H & _).
  exact (proj2 (H eq_refl ltac:(try unfold u; cbn; lia))).
Defined.

(** Three bytes written at offsets 7, 0 and 1 of a ring of 8. *)
Lemma Output_accepts_witness :
  let u := mkUart [] 0 (replicate 8 0) 6 1 1 tt in
  (tx_array_ok 8 u /\ 0 <= mTxLength u <= 8) /\
  (Output 8 [1; 2; 3] u).1.1 = 3 /\
  mTxLength (Output 8 [1; 2; 3] u).1.2 = 4 /\
  mTxBuffer (Output 8 [1; 2; 3] u).1.2 !! 0%nat = Some 2.
Proof.
  intros u.
  assert (Ha : tx_array_ok 8 u) by reflexivity.
  split; [split; [assumption | unfold u; cbn; lia]|].
  destruct (Output_accepts unit 8 ltac:(lia) [1; 2; 3] u Ha
              ltac:(try unfold u; cbn; lia) ltac:(try unfold u; cbn; lia)) as (H1 & H2 & _ & H4 & _).
  split; [exact H1|]. split; [exact H2|].
  exact (H4 1 ltac:(try unfold u; cbn; lia)).
Defined.

(** Two writes and a call of the send-pump while two bytes are in flight. *)
Lemma one_send_in_flight_witness :
  let u := mkUart [] 0 [1; 2; 0; 0; 0; 0; 0; 0] 0 2 2 tt in
  let ops := [OpOutput [3; 4]; OpSend; OpOutput [5]] in
  mSendLength u <> 0 /\
  (run_tx 8 ops u).2 = [] /\ mSendLength (run_tx 8 ops u).1 = mSendLength u.
Proof.
  intros u ops.
  assert (Hs : mSendLength u <> 0) by (unfold u; cbn; lia).
  split; [exact Hs|].
  exact (one_send_in_flight unit 8 ops u Hs eq_refl).
Defined.

Lemma SendDoneTask_spurious_witness :
  reachable 128 512 false echo_interpreter (Uart_new 128 512 tt) /\
  SendDoneTask 512 (Uart_new 128 512 tt) = (Uart_new 128 512 tt, []).
Proof.
  assert (Hr : reachable 128 512 false echo_interpreter (Uart_new 128 512 tt))
    by constructor.
  split; [exact Hr|].
  exact (SendDoneTask_spurious unit 128 512 false echo_interpreter
           ltac:(lia) _ Hr eq_refl).
Defined.

(** Delete on the line ["hi"] with an empty ring, where the three bytes
    are queued (and sent at once), and backspace on an empty line. *)
Lemma ReceiveByte_backspace_witness :
  let u := mkUart [104; 105; 0; 0] 2 (replicate 8 0) 0 0 0 tt in
  let u' := mkUart [104; 0; 0; 0] 1 [8; 32; 8; 0; 0; 0; 0; 0] 0 3 3 tt in
  (0 < mRxLength u <= 4 /\ rx_array_ok 4 u /\
   tx_array_ok 8 u /\ 0 <= mTxLength u <= 8) /\
  ReceiveByte 4 8 false echo_interpreter 127 u
  = Ok tt u' [EvUartSend [8; 32; 8] 3] /\
  pending 8 u' = pending 8 u ++ [8; 32; 8] /\
  ReceiveByte 4 8 false echo_interpreter 8 (Uart_new 4 8 tt)
  = Ok tt (Uart_new 4 8 tt) [].
Proof.
  intros u u'.
  assert (Hn : 0 < mRxLength u <= 4) by (unfold u; cbn; lia).
  assert (Ha : rx_array_ok 4 u) by reflexivity.
  assert (Hta : tx_array_ok 8 u) by reflexivity.
  assert (Hl : 0 <= mTxLength u <= 8) by (unfold u; cbn; lia).
  split; [repeat split; (assumption || unfold u; cbn; lia)|].
  destruct (ReceiveByte_backspace unit 4 8 false echo_interpreter
              ltac:(lia) ltac:(lia) 127 u (or_intror eq_refl))
    as (_ & H & _).
  destruct (H Hn Ha) as (E & _ & _ & _ & HT).
  destruct (HT Hta Hl) as (_ & _ & Ep & _).
  split; [exact E|]. split; [exact Ep|].
  destruct (ReceiveByte_backspace unit 4 8 false echo_interpreter
              ltac:(lia) ltac:(lia) 8 (Uart_new 4 8 tt)
              (or_introl eq_refl)) as [H0 _].
  exact (H0 eq_refl).
Defined.

(** 128 bytes ['a'] on an empty line are stored in the 128 bytes of the
    receive buffer; the carriage return that ends the line stores its NUL
    past the end. *)
Lemma ReceiveTask_terminator_overrun_witness :
  let bs := replicate 128 97 in
  let u := Uart_new 128 512 tt in
  (Forall (plain false) bs /\ rx_array_ok 128 u /\
   mRxLength u + Z.of_nat (length bs) = 128) /\
  (exists u' evs,
     ReceiveTask 128 512 false echo_interpreter bs u = Ok tt u' evs /\
     mRxLength u' = 128 /\ rx_line u' = bs /\
     filter is_ProcessLine evs = []) /\
  ReceiveTask 128 512 false echo_interpreter (bs ++ [13]) u
  = Stopped OutOfBounds.
Proof.
  intros bs u.
  assert (Hp : Forall (plain false) bs).
  { apply Forall_replicate. unfold plain.
    repeat split; (lia || discriminate). }
  assert (Ha : rx_array_ok 128 u) by reflexivity.
  assert (Hn : mRxLength u + Z.of_nat (length bs) = 128) by reflexivity.
  split; [repeat split; assumption|].
  exact (ReceiveTask_terminator_overrun unit 128 512 false echo_interpreter
           ltac:(lia) bs 13 u Hp (or_introl eq_refl) Ha ltac:(reflexivity)
           Hn).
Defined.

(** Seven letters typed on a ring of eight bytes, the first of them in
    flight: the backspace takes the last letter off the line, and of the
    three bytes of the erase sequence only the first finds room. What the
    driver is given until the ring is empty is the seven letters and one
    backspace: the space and the second backspace are never sent. *)
Lemma ReceiveByte_backspace_truncated :
  let typed := [97; 98; 99; 100; 101; 102; 103] in
  let u := mkUart (typed ++ replicate 9 0) 7 (typed ++ [0]) 0 7 1 tt in
  let u' := mkUart ([97; 98; 99; 100; 101; 102] ++ replicate 10 0) 6
              (typed ++ [8]) 0 8 1 tt in
  ReceiveTask 16 8 false echo_interpreter typed (Uart_new 16 8 tt)
  = Ok tt u [EvUartSend [97] 1] /\
  ReceiveByte 16 8 false echo_interpreter 8 u = Ok tt u' [] /\
  pending 8 u' = pending 8 u ++ [8] /\
  pending 8 u' <> pending 8 u ++ [8; 32; 8] /\
  sent_bytes ([EvUartSend [97] 1] ++ (drain 8 8 u').2) = typed ++ [8] /\
  mTxLength (drain 8 8 u').1 = 0.
Proof. vm_compute. repeat split. discriminate. Qed.

(** A carriage return after ["hi"]: one call of [ProcessLine], with the
    line and the length 2. *)
Lemma ReceiveByte_terminator_witness :
  let u := mkUart [104; 105; 0; 0] 2 (replicate 16 0) 0 0 0 tt in
  (rx_array_ok 4 u /\ 0 < mRxLength u < 4
   /\ strip_last 10 (rx_line u) <> []) /\
  exists u' trace aBuf,
    ReceiveByte 4 16 false echo_interpreter 13 u = Ok tt u' trace
    /\ filter is_ProcessLine trace = [EvProcessLine aBuf 2]
    /\ take 2 aBuf = [104; 105]
    /\ mRxLength u' = 0.
Proof.
  intros u.
  assert (Ha : rx_array_ok 4 u) by reflexivity.
  assert (Hn : 0 < mRxLength u < 4) by (unfold u; cbn; lia).
  assert (Hne : strip_last 10 (rx_line u) <> []) by (vm_compute; discriminate).
  split; [repeat split; (assumption || unfold u; cbn; lia)|].
  destruct (ReceiveByte_terminator unit 4 16 false echo_interpreter
              ltac:(lia) 13 u (or_introl eq_refl) Ha
              ltac:(unfold u; cbn; lia)) as (_ & H & _).
  destruct (H ltac:(unfold u; cbn; lia) Hne) as (aBuf & T1 & _ & E & F & L).
  eexists _, _, aBuf.
  split; [exact E|]. split; [exact F|]. split; [exact T1 | exact L].
Defined.

Arguments tx_ok {Interp}.
Arguments span_ok {Interp}.
Arguments send_span {Interp}.
Arguments OutputFormat {Interp}.
Arguments otCliLog {Interp}.

(** * More concrete runs *)

Ltac ring_facts :=
  unfold tx_ok, tx_array_ok, head_ok, ring_inv, idle_empty, rx_array_ok;
  cbn; repeat split; try reflexivity; try lia.

(** Room for three of five bytes, behind five queued bytes that go around
    the end of the array. *)
Lemma Output_appends_witness :
  let u := mkUart [] 0 [1; 2; 3; 4; 5; 6; 7; 8] 6 5 2 tt in
  (tx_array_ok 8 u /\ 0 <= mTxLength u <= 8) /\
  pending 8 (Output 8 [9; 9; 9; 9; 9] u).1.2 = [7; 8; 1; 2; 3; 9; 9; 9].
Proof.
  intros u.
  assert (Ha : tx_array_ok 8 u) by reflexivity.
  assert (Hl : 0 <= mTxLength u <= 8) by (unfold u; cbn; lia).
  split; [now split|].
  exact (Output_appends unit 8 ltac:(lia) [9; 9; 9; 9; 9] u Ha Hl
           ltac:(cbn; lia)).
Defined.

Lemma in_flight_span_witness :
  let u := (Output 512 [1; 2; 3] (Uart_new 128 512 tt)).1.2 in
  reachable 128 512 false echo_interpreter u /\
  mTxHead u + mSendLength u <= 512 /\
  send_span u = take (Z.to_nat (mSendLength u)) (pending 512 u).
Proof.
  intros u.
  assert (Hr : reachable 128 512 false echo_interpreter u)
    by (apply reach_Output, reach_new).
  split; [exact Hr|].
  destruct (in_flight_span unit 128 512 false echo_interpreter
              ltac:(lia) u Hr) as (H1 & _ & H3).
  now split.
Defined.

Lemma in_flight_untouched_witness :
  let u := (Output 512 [1; 2; 3] (Uart_new 128 512 tt)).1.2 in
  let ops := [OpOutput [4; 5]; OpSend; OpOutput [6]] in
  (reachable 128 512 false echo_interpreter u /\ mSendLength u <> 0) /\
  send_span (run_tx 512 ops u).1 = send_span u.
Proof.
  intros u ops.
  assert (Hr : reachable 128 512 false echo_interpreter u)
    by (apply reach_Output, reach_new).
  assert (Hs : mSendLength u <> 0) by (vm_compute; discriminate).
  split; [now split|].
  exact (in_flight_untouched unit 128 512 false echo_interpreter
           ltac:(lia) ops u Hr Hs eq_refl).
Defined.

(** Two bytes in flight at the end of the array, three more queued at its
    start. *)
Lemma SendDoneTask_completes_witness :
  let u := mkUart [] 0 [1; 2; 3; 4; 5; 6; 7; 8] 6 5 2 tt in
  tx_ok 8 u /\
  mTxHead (SendDoneTask 8 u).1 = 0 /\
  pending 8 (SendDoneTask 8 u).1 = [1; 2; 3] /\
  sent_bytes (SendDoneTask 8 u).2 = [1; 2; 3].
Proof.
  intros u.
  assert (Hok : tx_ok 8 u) by (unfold u; ring_facts).
  split; [exact Hok|].
  destruct (SendDoneTask_completes unit 8 ltac:(lia) u Hok)
    as (H1 & _ & H3 & _ & H5).
  split; [exact H1|]. split; [exact H3 | exact H5].
Defined.

(** Five bytes written with the head two bytes before the end of a ring
    of 8. *)
Lemma Output_wraps_witness :
  let u := mkUart [] 0 (replicate 8 0) 6 0 0 tt in
  (tx_array_ok 8 u /\ head_ok 8 u) /\
  (Output 8 [1; 2; 3; 4; 5] u).2 = [EvUartSend [1; 2] 2] /\
  (SendDoneTask 8 (Output 8 [1; 2; 3; 4; 5] u).1.2).2
  = [EvUartSend [3; 4; 5] 3].
Proof.
  intros u.
  assert (Ha : tx_array_ok 8 u) by reflexivity.
  assert (Hh : head_ok 8 u) by (unfold head_ok, u; cbn; lia).
  split; [now split|].
  destruct (Output_wraps unit 8 ltac:(lia) [1; 2; 3; 4; 5] u Ha Hh
              eq_refl eq_refl ltac:(unfold u; cbn; lia))
    as (_ & H2 & _ & H4 & _).
  split; [exact H2 | exact H4].
Defined.

(** A full ring of 8 that needs all three completions: three bytes in
    flight from offset 2, three queued up to the end of the array, two at
    its start. *)
Lemma drain_three_witness :
  let u := mkUart [] 0 [4; 5; 6; 7; 8; 1; 2; 3] 2 8 3 tt in
  tx_ok 8 u /\
  mTxLength (drain 8 3 u).1 = 0 /\
  sent_bytes (drain 8 3 u).2 = [1; 2; 3; 4; 5] /\
  mSendLength (drain 8 2 u).1 <> 0.
Proof.
  intros u.
  assert (Hok : tx_ok 8 u) by (unfold u; ring_facts).
  split; [exact Hok|].
  destruct (drain_three unit 8 ltac:(lia) u Hok) as (_ & H2 & H3).
  split; [exact H2|]. split; [exact H3|]. vm_compute. discriminate.
Defined.

Lemma Output_nothing_witness :
  let u := mkUart [] 0 [4; 5; 6; 7; 8; 1; 2; 3] 2 8 3 tt in
  (tx_ok 8 u /\ mTxLength u = 8) /\
  Output 8 [9; 9] u = (0, u, []).
Proof.
  intros u.
  assert (Hok : tx_ok 8 u) by (unfold u; ring_facts).
  split; [now split|].
  exact (Output_nothing unit 8 ltac:(lia) [9; 9] u Hok (or_intror eq_refl)).
Defined.

(** The state after the bytes ['a'] and ['b']. *)
Lemma receive_line_invariant_witness :
  let u := mkUart [97; 98; 0; 0] 2 [97; 98; 0; 0; 0; 0; 0; 0] 0 2 1 tt in
  reachable 4 8 false echo_interpreter u /\
  0 <= mRxLength u <= 4 /\
  Forall (fun c => c <> 13 /\ c <> 10) (rx_line u).
Proof.
  intros u.
  assert (Hr : reachable 4 8 false echo_interpreter u).
  { apply (reach_ReceiveTask unit 4 8 false echo_interpreter
             (Uart_new 4 8 tt) [97; 98] u [EvUartSend [97] 1]);
      [apply reach_new | reflexivity]. }
  split; [exact Hr|].
  destruct (receive_line_invariant unit 4 8 false echo_interpreter
              ltac:(lia) u Hr) as (_ & H2 & H3).
  now split.
Defined.

(** Three erasing bytes on the line ["hi"]. *)
Lemma ReceiveTask_backspaces_witness :
  let u := mkUart [104; 105; 0; 0] 2 (replicate 8 0) 0 0 0 tt in
  (Forall erasing [8; 127; 8] /\ rx_array_ok 4 u /\ 0 <= mRxLength u <= 4) /\
  exists u' evs,
    ReceiveTask 4 8 false echo_interpreter [8; 127; 8] u = Ok tt u' evs /\
    mRxLength u' = 0 /\ rx_line u' = [].
Proof.
  intros u.
  assert (Hp : Forall erasing [8; 127; 8]).
  { repeat constructor; unfold erasing; lia. }
  assert (Ha : rx_array_ok 4 u) by reflexivity.
  assert (Hn : 0 <= mRxLength u <= 4) by (unfold u; cbn; lia).
  split; [now repeat split|].
  destruct (ReceiveTask_backspaces unit 4 8 false echo_interpreter
              ltac:(lia) [8; 127; 8] u Hp Ha Hn)
    as (u' & evs & E & L & R & _).
  exists u', evs. split; [exact E|]. split; [exact L | exact R].
Defined.

(** The line ["hi"] and a carriage return, on a fresh object. *)
Lemma ReceiveTask_line_witness :
  (Forall (plain false) [104; 105] /\ rx_array_ok 4 (Uart_new 4 16 tt)) /\
  exists u' evs aBuf,
    ReceiveTask 4 16 false echo_interpreter ([104; 105] ++ [13])
      (Uart_new 4 16 tt) = Ok tt u' evs /\
    filter is_ProcessLine evs = [EvProcessLine aBuf 2] /\
    take 2 aBuf = [104; 105] /\ mRxLength u' = 0.
Proof.
  assert (Hp : Forall (plain false) [104; 105]).
  { repeat constructor; unfold plain; repeat split; (lia || discriminate). }
  assert (Ha : rx_array_ok 4 (Uart_new 4 16 tt)) by reflexivity.
  split; [now split|].
  destruct (ReceiveTask_line unit 4 16 false echo_interpreter ltac:(lia)
              [104; 105] 13 (Uart_new 4 16 tt) Hp ltac:(discriminate)
              ltac:(cbn; lia) (or_introl eq_refl) Ha eq_refl)
    as (u' & evs & aBuf & E & F & T & _ & L).
  exists u', evs, aBuf.
  split; [exact E|]. split; [exact F|]. split; [exact T | exact L].
Defined.

(** ['a'], ['b'], Ctrl-C, ['c'] on a hosted build: the exit finds both
    letters in the line and in the ring, the first of them handed to the
    driver. *)
Lemma ReceiveTask_ctrl_c_witness :
  let u1 := mkUart [97; 98; 0; 0] 2 [97; 98; 0; 0; 0; 0; 0; 0] 0 2 1 tt in
  ReceiveTask 4 8 true echo_interpreter [97; 98] (Uart_new 4 8 tt)
  = Ok tt u1 [EvUartSend [97] 1] /\
  ReceiveTask 4 8 true echo_interpreter ([97; 98] ++ 3 :: [99])
    (Uart_new 4 8 tt)
  = Stopped (ProcessExit u1 [EvUartSend [97] 1]).
Proof.
  intros u1.
  assert (E : ReceiveTask 4 8 true echo_interpreter [97; 98] (Uart_new 4 8 tt)
              = Ok tt u1 [EvUartSend [97] 1]) by reflexivity.
  split; [exact E|].
  exact (proj1 (ReceiveTask_ctrl_c unit 4 8 true echo_interpreter
                  ltac:(lia) [97; 98] [99] _ _ _ E) eq_refl).
Defined.

(** Five bytes rendered into a buffer of four. *)
Lemma OutputFormat_text_witness :
  0 < 4 <= 65536 /\
  OutputFormat 8 4 [65; 66; 67; 68; 69] (Uart_new 4 8 tt)
  = Output 8 [65; 66; 67] (Uart_new 4 8 tt).
Proof.
  split; [lia|].
  exact (proj1 (OutputFormat_text unit 8 4 [65; 66; 67; 68; 69]
                  (Uart_new 4 8 tt) ltac:(lia))).
Defined.

(** The log line ["INFO MAC  hi"]. *)
Lemma otCliLog_line_witness :
  (5 < 128 <= 65536 /\ tx_array_ok 512 (Uart_new 128 512 tt)) /\
  exists u',
    (otCliLog 512 128 (Some (Uart_new 128 512 tt))
       kLogLevelInfo kLogRegionMac [104; 105]).1 = Some u' /\
    pending 512 u'
    = [73; 78; 70; 79; 32; 77; 65; 67; 32; 32; 104; 105].
Proof.
  assert (Ha : tx_array_ok 512 (Uart_new 128 512 tt)) by reflexivity.
  split; [split; [lia | exact Ha]|].
  destruct (otCliLog_line unit 512 128 ltac:(lia)
              kLogLevelInfo kLogRegionMac [104; 105] (Uart_new 128 512 tt)
              [73; 78; 70; 79; 32] [77; 65; 67; 32; 32]
              ltac:(lia) eq_refl eq_refl
              ltac:(repeat constructor; discriminate) ltac:(cbn; lia)
              Ha ltac:(cbn; lia) ltac:(cbn; lia))
    as (u' & E & P & _).
  exists u'. split; [exact E | exact P].
Defined.

(** A warning for a region that the switch does not name. *)
Lemma otCliLog_dropped_witness :
  (5 < 128 <= 65536 /\ tx_array_ok 512 (Uart_new 128 512 tt)) /\
  exists u',
    (otCliLog 512 128 (Some (Uart_new 128 512 tt))
       kLogLevelWarn kLogRegionOther [104; 105]).1 = Some u' /\
    pending 512 u' = [87; 65; 82; 78; 32].
Proof.
  assert (Ha : tx_array_ok 512 (Uart_new 128 512 tt)) by reflexivity.
  split; [split; [lia | exact Ha]|].
  destruct (otCliLog_dropped unit 512 128 ltac:(lia)
              kLogLevelWarn kLogRegionOther [104; 105] (Uart_new 128 512 tt)
              [87; 65; 82; 78; 32] ltac:(lia) Ha ltac:(cbn; lia)
              ltac:(cbn; lia))
    as (_ & _ & H).
  destruct (H eq_refl) as (u' & E & P).
  exists u'. split; [exact E | exact P].
Defined.

(** A log line while three bytes are in flight. *)
Lemma otCliLog_keeps_witness :
  let u := mkUart [] 0 [1; 2; 3; 0; 0; 0; 0; 0] 0 3 3 tt in
  tx_ok 8 u /\
  exists u',
    (otCliLog 8 128 (Some u) kLogLevelCrit kLogRegionMle [104; 105]).1
    = Some u' /\
    tx_ok 8 u' /\
    (otCliLog 8 128 (Some u) kLogLevelCrit kLogRegionMle [104; 105]).2 = [].
Proof.
  intros u.
  assert (Hok : tx_ok 8 u) by (unfold u; ring_facts).
  split; [exact Hok|].
  destruct (otCliLog_keeps unit 8 128 ltac:(lia)
              kLogLevelCrit kLogRegionMle [104; 105] u Hok)
    as (u' & E & K & _ & _ & S).
  exists u'. split; [exact E|]. split; [exact K|].
  exact (proj1 (S ltac:(unfold u; cbn; lia))).
Defined.

(** The bytes ["hi"] typed on a fresh object. *)
Lemma ReceiveTask_types_witness :
  (Forall (plain false) [104; 105] /\ rx_array_ok 4 (Uart_new 4 8 tt)) /\
  exists u' evs,
    ReceiveTask 4 8 false echo_interpreter [104; 105] (Uart_new 4 8 tt)
    = Ok tt u' evs /\
    rx_line u' = [104; 105] /\ pending 8 u' = [104; 105].
Proof.
  assert (Hp : Forall (plain false) [104; 105]).
  { repeat constructor; unfold plain; repeat split; (lia || discriminate). }
  assert (Ha : rx_array_ok 4 (Uart_new 4 8 tt)) by reflexivity.
  split; [now split|].
  destruct (ReceiveTask_types unit 4 8 false echo_interpreter
              ltac:(lia) ltac:(lia) [104; 105] (Uart_new 4 8 tt) Hp Ha
              ltac:(cbn; lia) ltac:(cbn; lia))
    as (u' & evs & E & R & _ & P).
  exists u', evs. split; [exact E|]. split; [exact R|].
  exact (P eq_refl ltac:(cbn; lia) ltac:(cbn; lia)).
Defined.

(** Enter on a fresh object. *)
Lemma ReceiveByte_empty_line_witness :
  tx_array_ok 8 (Uart_new 4 8 tt) /\
  exists u' evs,
    ReceiveByte 4 8 false echo_interpreter 13 (Uart_new 4 8 tt)
    = Ok tt u' evs /\
    pending 8 u' = [13; 10; 62; 32].
Proof.
  assert (Ha : tx_array_ok 8 (Uart_new 4 8 tt)) by reflexivity.
  split; [exact Ha|].
  destruct (ReceiveByte_empty_line unit 4 8 false echo_interpreter
              ltac:(lia) 13 (Uart_new 4 8 tt) (or_introl eq_refl) eq_refl
              Ha ltac:(cbn; lia) ltac:(cbn; lia))
    as (u' & evs & E & P & _).
  exists u', evs. split; [exact E | exact P].
Defined.
